(** * github_activity.graphql: the paginated GitHub search query

    A shallow embedding of [src/github_activity/graphql.py]: the class
    [GitHubGraphQlQuery] with its constructor and its [request] method,
    the three query templates, and the fragments of Python, [requests],
    [numpy] and [pandas] that [request] goes through.

    - decoded JSON is an untyped Python value ([pyval]); a subscript on it
      raises [KeyError] or [TypeError] as Python does;
    - [request] runs in a state-and-exception monad over the attributes of
      [self], the locals of the loop and the effects (documents posted,
      lines printed);
    - the transport ([requests.post]) is a parameter: the [k]-th call with
      a given document answers with a response or raises;
    - [issueCount / n_per_page] is IEEE binary64 division, taken from the
      Standard Library's executable specification of floats. *)

From Stdlib Require Import ZArith List String Ascii Bool Lia.
From Stdlib Require Import Decimal DecimalString.
From Stdlib Require Import Floats.SpecFloat.
Import ListNotations.

Local Open Scope string_scope.
Local Open Scope Z_scope.

(** ** Python values and exceptions *)

Module Py.

(** What [json()] decodes to, plus the [nan] that [pandas] puts in the
    cells of a column a record has no key for.  JSON numbers are integers
    here: the fields [request] computes with ([issueCount]) are. *)
#[warnings="-register-all"]
Inductive pyval : Type :=
| PNone
| PBool (b : bool)
| PInt (z : Z)
| PNaN
| PStr (s : string)
| PList (l : list pyval)
| PDict (d : list (string * pyval)).

(** The exceptions [request] can end with.  [Unmodelled] is not one of
    Python's: it marks an input on which this model does not say what
    [pandas] or the progress bar do. *)
Inductive exn : Type :=
| Exception (msg : string)
| KeyError (key : string)
| IndexError
| TypeError
| AttributeError
| ZeroDivisionError
| OverflowError
| ValueError
| UnboundLocalError
| RequestException
| Unmodelled.

Inductive result (A : Type) : Type :=
| Ok (a : A)
| Raise (e : exn).
Arguments Ok {A} a.
Arguments Raise {A} e.

Definition is_ok {A} (r : result A) : bool :=
  match r with Ok _ => true | Raise _ => false end.

Definition and_then {A B} (r : result A) (k : A -> result B) : result B :=
  match r with
  | Ok a => k a
  | Raise e => Raise e
  end.

(** [d[key]] on a dict held as an association list in insertion order. *)
Fixpoint dict_get (key : string) (d : list (string * pyval)) : option pyval :=
  match d with
  | [] => None
  | (k, v) :: d' => if String.eqb k key then Some v else dict_get key d'
  end.

(** [key in d.keys()] *)
Definition dict_has (key : string) (d : list (string * pyval)) : bool :=
  match dict_get key d with Some _ => true | None => false end.

(** [v[key]] for a string [key]: only a dict can be subscripted by one. *)
Definition getitem (v : pyval) (key : string) : result pyval :=
  match v with
  | PDict d => match dict_get key d with
               | Some x => Ok x
               | None => Raise (KeyError key)
               end
  | _ => Raise TypeError
  end.

(** [v.keys()] *)
Definition keys (v : pyval) : result (list string) :=
  match v with
  | PDict d => Ok (map fst d)
  | _ => Raise AttributeError
  end.

(** [v == z] for an int [z]: [bool] is a subclass of [int]. *)
Definition eq_int (v : pyval) (z : Z) : bool :=
  match v with
  | PInt x => x =? z
  | PBool b => (if b then 1 else 0) =? z
  | _ => false
  end.

(** [v is False] *)
Definition is_False (v : pyval) : bool :=
  match v with
  | PBool false => true
  | _ => false
  end.

(** [v is not None] *)
Definition is_not_None (v : pyval) : bool :=
  match v with
  | PNone => false
  | _ => true
  end.

(** [str(z)] *)
Definition str_int (z : Z) : string := NilZero.string_of_int (Z.to_int z).

Section Str.
(** [repr] of a list or of a dict, a Python builtin. *)
Variable repr_container : pyval -> string.

(** [str(v)], which is what ['%s' % v] and ['{}'.format(v)] insert. *)
Definition str (v : pyval) : string :=
  match v with
  | PNone => "None"
  | PBool true => "True"
  | PBool false => "False"
  | PInt z => str_int z
  | PNaN => "nan"
  | PStr s => s
  | PList _ | PDict _ => repr_container v
  end.
End Str.

(** [sep.join(l)] *)
Fixpoint join (sep : string) (l : list string) : string :=
  match l with
  | [] => EmptyString
  | [x] => x
  | x :: l' => x ++ sep ++ join sep l'
  end.

(** [s.split(c)] for a one-character separator: one more piece than
    there are separators, never an empty list. *)
Fixpoint split (c : ascii) (s : string) : list string :=
  match s with
  | EmptyString => [EmptyString]
  | String a s' =>
      if Ascii.eqb a c then EmptyString :: split c s'
      else match split c s' with
           | h :: t => String a h :: t
           | [] => [String a EmptyString]
           end
  end.

(** [l[i]] for [i >= 0] *)
Definition index {A} (l : list A) (i : nat) : result A :=
  match nth_error l i with
  | Some x => Ok x
  | None => Raise IndexError
  end.

(** [l.extend(v)]: [v] is iterated; a dict yields its keys, a string its
    characters. *)
Fixpoint chars (s : string) : list pyval :=
  match s with
  | EmptyString => []
  | String a s' => PStr (String a EmptyString) :: chars s'
  end.

Definition iterate (v : pyval) : result (list pyval) :=
  match v with
  | PList l => Ok l
  | PDict d => Ok (map (fun kv => PStr (fst kv)) d)
  | PStr s => Ok (chars s)
  | _ => Raise TypeError
  end.

End Py.
Import Py.

(** ** The query templates *)

Definition nl : string := String "010"%char EmptyString.
Definition dquote : string := String "034"%char EmptyString.

(** A triple-quoted block, one element per source line, each line ended
    by its newline. *)
Definition unlines (ls : list string) : string :=
  String.concat EmptyString (map (fun l => l ++ nl) ls).

Definition comments_query : string := unlines
  [ "        comments(last: 100) {"
  ; "          edges {"
  ; "            node {"
  ; "              authorAssociation"
  ; "              createdAt"
  ; "              updatedAt"
  ; "              url"
  ; "              author {"
  ; "                login"
  ; "              }"
  ; "            }"
  ; "          }"
  ; "        }" ].

Definition base_elements : string := unlines
  [ "        state"
  ; "        id"
  ; "        title"
  ; "        url"
  ; "        createdAt"
  ; "        updatedAt"
  ; "        closedAt"
  ; "        labels(first: 10) {"
  ; "            edges {"
  ; "                node {"
  ; "                    name"
  ; "                }"
  ; "            }"
  ; "        }"
  ; "        number"
  ; "        authorAssociation"
  ; "        author {"
  ; "          login"
  ; "        }" ].

(** [gql_template.format(query=..., comments=..., base_elements=...)]:
    the doubled braces of the template are single in the document. *)
Definition gql_template_format (query comments base_elements : string) : string :=
  unlines
  [ "{"
  ; "  search(" ++ query ++ ") {"
  ; "    issueCount"
  ; "    pageInfo {"
  ; "        endCursor"
  ; "        hasNextPage"
  ; "    }"
  ; "    nodes {"
  ; "      ... on PullRequest {"
  ; "        " ++ base_elements
  ; "        mergedBy {"
  ; "          login"
  ; "        }"
  ; "        mergeCommit {"
  ; "          oid"
  ; "        }"
  ; "        " ++ comments
  ; "      }"
  ; "      ... on Issue {"
  ; "        " ++ base_elements
  ; "        " ++ comments
  ; "      }"
  ; "    }"
  ; "  }"
  ; "}" ].

(** ** [numpy]: the expected number of pages *)

Module Np.

(** binary64 *)
Definition prec : Z := 53.
Definition emax : Z := 1024.

(** An [int] as the exact dyadic [z * 2^0]; [SFdiv] takes mantissas of
    any size, so the quotient of two of them is the exact quotient rounded
    once, to nearest even, which is what [int / int] computes. *)
Definition of_int (z : Z) : spec_float :=
  match z with
  | Z0 => S754_zero false
  | Zpos p => S754_finite false p 0
  | Zneg p => S754_finite true p 0
  end.

(** [a / b] on two [int]s *)
Definition int_truediv (a b : Z) : result spec_float :=
  if b =? 0 then Raise ZeroDivisionError
  else match SFdiv prec emax (of_int a) (of_int b) with
       | S754_infinity _ | S754_nan => Raise OverflowError
       | f => Ok f
       end.

(** [v / b] for a decoded value [v] *)
Definition truediv (v : pyval) (b : Z) : result spec_float :=
  match v with
  | PInt a => int_truediv a b
  | PBool t => int_truediv (if t then 1 else 0) b
  | _ => Raise TypeError
  end.

(** [int(np.ceil(f))]: the ceiling of a float is a float, exactly. *)
Definition int_ceil (f : spec_float) : result Z :=
  match f with
  | S754_zero _ => Ok 0
  | S754_finite s m e =>
      let v := cond_Zopp s (Zpos m) in
      Ok (if 0 <=? e then v * 2 ^ e else - ((- v) / 2 ^ (- e)))
  | S754_infinity _ => Raise OverflowError
  | S754_nan => Raise ValueError
  end.

End Np.

(** [int(np.ceil(json['issueCount'] / n_per_page))], line 145 *)
Definition expected_pages (issueCount : pyval) (n_per_page : Z) : result Z :=
  match Np.truediv issueCount n_per_page with
  | Ok f => Np.int_ceil f
  | Raise e => Raise e
  end.

(** [ceil(totalCount / pageSize)] in exact integer arithmetic, which is
    what the expected number of pages is meant to be. *)
Definition ceil_div (a b : Z) : Z := - ((- a) / b).

(** ** [pandas]: the frame of records *)

Module Pd.

Definition Series : Type := list pyval.

(** A frame, column by column, in column order; every column has one cell
    per row.  Cells hold the Python objects themselves, as the [object]
    columns of [author] and [url] do. *)
Definition DataFrame : Type := list (string * Series).

(** [pd.DataFrame()] *)
Definition empty : DataFrame := [].

Fixpoint as_records (l : list pyval) : option (list (list (string * pyval))) :=
  match l with
  | [] => Some []
  | PDict d :: l' =>
      match as_records l' with
      | Some rs => Some (d :: rs)
      | None => None
      end
  | _ :: _ => None
  end.

Definition add_key (acc : list string) (k : string) : list string :=
  if existsb (String.eqb k) acc then acc else List.app acc [k].

(** The columns: the keys of the records, in order of first appearance. *)
Definition union_keys (rs : list (list (string * pyval))) : list string :=
  fold_left (fun acc d => fold_left add_key (map fst d) acc) rs [].

(** A record without the key leaves [nan] in the column. *)
Definition cell (k : string) (d : list (string * pyval)) : pyval :=
  match dict_get k d with
  | Some v => v
  | None => PNaN
  end.

(** [pd.DataFrame(l)] for a list of dicts; a list with something else in
    it is outside this model. *)
Definition of_list (l : list pyval) : result DataFrame :=
  match as_records l with
  | Some rs => Ok (map (fun k => (k, map (cell k) rs)) (union_keys rs))
  | None => Raise Unmodelled
  end.

(** [df[col]] *)
Fixpoint column (df : DataFrame) (col : string) : result Series :=
  match df with
  | [] => Raise (KeyError col)
  | (k, s) :: df' => if String.eqb k col then Ok s else column df' col
  end.

(** [df[col] = s]: in place when the column exists, appended when not. *)
Fixpoint set_column (df : DataFrame) (col : string) (s : Series) : DataFrame :=
  match df with
  | [] => [(col, s)]
  | (k, s0) :: df' =>
      if String.eqb k col then (k, s) :: df' else (k, s0) :: set_column df' col s
  end.

(** [s.map(f)]: [f] on every cell in row order; the first exception
    ends it.  The results are kept as [f] returned them.  pandas then
    infers the dtype of the new column, and a [None] among the results
    is held as [nan] when that dtype has no [None] (floats, and the
    string dtype of pandas 3); [stored] below is that reading of a
    cell. *)
Fixpoint map_series (f : pyval -> result pyval) (s : Series) : result Series :=
  match s with
  | [] => Ok []
  | x :: s' =>
      match f x with
      | Raise e => Raise e
      | Ok y => match map_series f s' with
                | Raise e => Raise e
                | Ok ys => Ok (y :: ys)
                end
      end
  end.

(** The cell of row [i] in column [col], when there is one. *)
Definition at_ (df : DataFrame) (col : string) (i : nat) : option pyval :=
  match column df col with
  | Ok s => nth_error s i
  | Raise _ => None
  end.

(** [pd.isna(v)] on a scalar: the missing-value markers are [None] and
    [nan]. *)
Definition isna (v : pyval) : bool :=
  match v with
  | PNone | PNaN => true
  | _ => false
  end.

(** [stored v w]: a column that [map] built may hold [w] where the mapped
    function returned [v].  It is the object itself, or [nan] for a
    [None]; which of the two depends on the other cells of the column
    and on the pandas release. *)
Definition stored (v w : pyval) : Prop :=
  w = v \/ (v = PNone /\ w = PNaN).

End Pd.

(** ** The state [request] runs in *)

(** What [requests.post] returns: the status code, and the decoded body
    when the body is JSON ([json()] raises when it is not). *)
Record Response : Type := {
  status_code : Z;
  body : option pyval
}.

(** [ii_request.json()] *)
Definition json (r : Response) : result pyval :=
  match body r with
  | Some v => Ok v
  | None => Raise ValueError
  end.

(** The [widgets.IntProgress] bar, as the record of its traits. *)
Module Widgets.

Record IntProgress : Type := {
  value : Z;
  min : Z;
  max : Z;
  description : string;
  bar_style : string
}.

(** [prog.value += 1]: a bounded int caps and floors what it is given. *)
Definition increment (p : IntProgress) : IntProgress :=
  {| value := Z.min (Z.max (value p + 1) (min p)) (max p);
     min := min p; max := max p; description := description p;
     bar_style := bar_style p |}.

(** [prog.bar_style = style] *)
Definition set_bar_style (style : string) (p : IntProgress) : IntProgress :=
  {| value := value p; min := min p; max := max p;
     description := description p; bar_style := style |}.

End Widgets.

(** The attributes of [self]. *)
Record GitHubGraphQlQuery : Type := {
  query : string;
  headers : list (string * string);
  display_progress : bool;
  issues_and_or_prs : list pyval;
  last_request : option Response;
  last_query : option string;
  data : option Pd.DataFrame
}.

(** The locals of [request] that live across iterations. *)
Record locals : Type := {
  pageInfo : option pyval;
  prog : option Widgets.IntProgress
}.

(** What the run did to the outside: the documents posted, in order, the
    lines printed, whether the bar was put on display. *)
Record effects : Type := {
  posted : list string;
  printed : list string;
  displayed : bool
}.

Record state : Type := {
  self : GitHubGraphQlQuery;
  vars : locals;
  world : effects
}.

(** [GitHubGraphQlQuery.__init__]; [environ] is
    [os.environ.get('GITHUB_ACCESS_TOKEN')]. *)
Definition init (environ : option string) (query : string)
    (display_progress : bool) (auth : option string) : GitHubGraphQlQuery :=
  let auth := match auth with None => environ | Some a => Some a end in
  let headers := match auth with
                 | Some a => [("Authorization", "Bearer " ++ a)]
                 | None => []
                 end in
  {| query := query; headers := headers; display_progress := display_progress;
     issues_and_or_prs := []; last_request := None; last_query := None;
     data := None |}.

(** The state a call of [request] starts in. *)
Definition start (obj : GitHubGraphQlQuery) : state :=
  {| self := obj;
     vars := {| pageInfo := None; prog := None |};
     world := {| posted := []; printed := []; displayed := false |} |}.

Definition with_self (f : GitHubGraphQlQuery -> GitHubGraphQlQuery) (st : state) : state :=
  {| self := f (self st); vars := vars st; world := world st |}.

Definition with_vars (f : locals -> locals) (st : state) : state :=
  {| self := self st; vars := f (vars st); world := world st |}.

Definition with_world (f : effects -> effects) (st : state) : state :=
  {| self := self st; vars := vars st; world := f (world st) |}.

Definition set_issues_and_or_prs (l : list pyval) (o : GitHubGraphQlQuery) :=
  {| query := query o; headers := headers o; display_progress := display_progress o;
     issues_and_or_prs := l; last_request := last_request o;
     last_query := last_query o; data := data o |}.

Definition set_last_request (r : Response) (o : GitHubGraphQlQuery) :=
  {| query := query o; headers := headers o; display_progress := display_progress o;
     issues_and_or_prs := issues_and_or_prs o; last_request := Some r;
     last_query := last_query o; data := data o |}.

Definition set_last_query (q : string) (o : GitHubGraphQlQuery) :=
  {| query := query o; headers := headers o; display_progress := display_progress o;
     issues_and_or_prs := issues_and_or_prs o; last_request := last_request o;
     last_query := Some q; data := data o |}.

Definition set_data (df : Pd.DataFrame) (o : GitHubGraphQlQuery) :=
  {| query := query o; headers := headers o; display_progress := display_progress o;
     issues_and_or_prs := issues_and_or_prs o; last_request := last_request o;
     last_query := last_query o; data := Some df |}.

Definition set_pageInfo (v : pyval) (l : locals) :=
  {| pageInfo := Some v; prog := prog l |}.

Definition set_prog (p : Widgets.IntProgress) (l : locals) :=
  {| pageInfo := pageInfo l; prog := Some p |}.

(** ** The monad: state, and an exception or a value *)

Definition M (A : Type) : Type := state -> result A * state.

Definition ret {A} (a : A) : M A := fun st => (Ok a, st).

Definition bind {A B} (m : M A) (k : A -> M B) : M B :=
  fun st =>
    match m st with
    | (Ok a, st') => k a st'
    | (Raise e, st') => (Raise e, st')
    end.

Definition raise {A} (e : exn) : M A := fun st => (Raise e, st).

(** A pure step that may raise. *)
Definition lift {A} (r : result A) : M A := fun st => (r, st).

Definition gets {A} (f : state -> A) : M A := fun st => (Ok (f st), st).

Definition modify (f : state -> state) : M unit := fun st => (Ok tt, f st).

(** A local read before it was ever assigned. *)
Definition local {A} (f : locals -> option A) : M A :=
  fun st =>
    match f (vars st) with
    | Some a => (Ok a, st)
    | None => (Raise UnboundLocalError, st)
    end.

Declare Scope py_scope.
Delimit Scope py_scope with py.
Notation "x <- m ;; k" := (bind m (fun x => k))
  (at level 61, m at next level, right associativity) : py_scope.
Notation "m ;; k" := (bind m (fun _ => k))
  (at level 61, right associativity) : py_scope.
Local Open Scope py_scope.

(** [print(line)] *)
Definition print (line : string) : M unit :=
  modify (with_world (fun w =>
    {| posted := posted w; printed := List.app (printed w) [line]; displayed := displayed w |})).

(** [display(prog)] *)
Definition display : M unit :=
  modify (with_world (fun w =>
    {| posted := posted w; printed := printed w; displayed := true |})).

(** How the [for] loop goes on after one pass through its body. *)
Inductive flow : Type :=
| Next
| Break
| Return.

(** How the [for] loop was left. *)
Inductive loop_exit : Type :=
| Exhausted
| Broke
| Returned.

(** ** Runs to try the model on *)

Module Scenario.

(** [repr] on values whose strings need no escaping. *)
Fixpoint repr (v : pyval) : string :=
  match v with
  | PNone => "None"
  | PBool true => "True"
  | PBool false => "False"
  | PInt z => str_int z
  | PNaN => "nan"
  | PStr s => "'" ++ s ++ "'"
  | PList l => "[" ++ join ", " (map repr l) ++ "]"
  | PDict d =>
      "{" ++ join ", " (map (fun kv => "'" ++ fst kv ++ "': " ++ repr (snd kv)) d) ++ "}"
  end.

Definition record (author : pyval) (url : string) : pyval :=
  PDict [("author", author); ("url", PStr url)].

Definition alice : pyval :=
  record (PDict [("login", PStr "alice")]) "https://github.com/ORG/REPO/issues/1".

(** An issue whose author's account was deleted. *)
Definition ghost : pyval :=
  record PNone "https://github.com/ORG/REPO/issues/2".

(** A record whose url has four pieces only. *)
Definition stray : pyval :=
  record (PDict [("login", PStr "bob")]) "https://github.com/ORG".

Definition search (issueCount : Z) (nodes : list pyval) (endCursor : pyval)
    (hasNextPage : bool) : pyval :=
  PDict [ ("issueCount", PInt issueCount)
        ; ("pageInfo", PDict [ ("endCursor", endCursor)
                             ; ("hasNextPage", PBool hasNextPage) ])
        ; ("nodes", PList nodes) ].

(** A 200 answer with the page under [data.search]. *)
Definition page (issueCount : Z) (nodes : list pyval) (endCursor : pyval)
    (hasNextPage : bool) : Response :=
  {| status_code := 200;
     body := Some (PDict [("data",
               PDict [("search", search issueCount nodes endCursor hasNextPage)])]) |}.

Definition unauthorized : Response :=
  {| status_code := 401;
     body := Some (PDict [("message", PStr "Bad credentials")]) |}.

Definition errors : pyval :=
  PList [PDict [("message", PStr "Parse error")]].

Definition rejected : Response :=
  {| status_code := 200; body := Some (PDict [("errors", errors)]) |}.

(** A 200 answer with neither [errors] nor [data]. *)
Definition bare : Response :=
  {| status_code := 200; body := Some (PDict [("message", PStr "ok")]) |}.

(** A page that says there is more and gives no cursor entry. *)
Definition search_without_cursor (issueCount : Z) (nodes : list pyval) : pyval :=
  PDict [ ("issueCount", PInt issueCount)
        ; ("pageInfo", PDict [("hasNextPage", PBool true)])
        ; ("nodes", PList nodes) ].

Definition page_without_cursor (issueCount : Z) (nodes : list pyval) : Response :=
  {| status_code := 200;
     body := Some (PDict [("data",
               PDict [("search", search_without_cursor issueCount nodes)])]) |}.

(** A frame an earlier run left. *)
Definition stale_frame : Pd.DataFrame := [("author", [PStr "carol"])].

(** A remote end that answers the [k]-th post with the [k]-th response of
    a script, and drops the connection after the last. *)
Definition answers (script : list Response)
    : nat -> string -> list (string * string) -> result Response :=
  fun k _ _ =>
    match nth_error script k with
    | Some r => Ok r
    | None => Raise RequestException
    end.

Definition obj : GitHubGraphQlQuery := init None "repo:ORG/REPO" true None.

(** [obj] after an earlier run left a frame in [self.data]. *)
Definition used : GitHubGraphQlQuery := set_data stale_frame obj.

(** Two pages, the second one the last. *)
Definition two_pages : list Response :=
  [page 2 [alice] (PStr "c1") true; page 2 [ghost] PNone false].

(** A first page, then a refusal where the second page should be. *)
Definition broken_second : list Response :=
  [page 2 [alice] (PStr "c1") true; unauthorized; page 2 [ghost] PNone false].

(** The state of [obj] with these records kept, as line 168 finds it. *)
Definition kept (l : list pyval) : state :=
  with_self (set_issues_and_or_prs l) (start obj).

End Scenario.

(** ** [GitHubGraphQlQuery.request] *)

Section Request.

(** [repr] of a list or a dict, for the texts that quote one. *)
Variable repr_container : pyval -> string.

(** The remote end: what the [k]-th [requests.post] of the run, with
    this document and these headers, comes back with. *)
Variable post : nat -> string -> list (string * string) -> result Response.

(** The document joins the ones already posted. *)
Definition record_post (doc : string) (st : state) : state :=
  with_world (fun w =>
    {| posted := List.app (posted w) [doc]; printed := printed w;
       displayed := displayed w |}) st.

(** [requests.post('https://api.github.com/graphql',
    json={'query': doc}, headers=self.headers)], line 130 *)
Definition requests_post (doc : string) : M Response :=
  fun st =>
    (post (List.length (posted (world st))) doc (headers (self st)),
     record_post doc st).

(** Lines 117-121: the arguments of [search(...)] on every page. *)
Definition search_args (n_per_page : Z) (q : string) : list string :=
  [ "first: " ++ str_int n_per_page
  ; "query: " ++ dquote ++ q ++ dquote
  ; "type: ISSUE" ].

(** Line 123: ['after: "%s"' % pageInfo['endCursor']] *)
Definition after_arg (cursor : pyval) : string :=
  "after: " ++ dquote ++ str repr_container cursor ++ dquote.

(** Lines 117-123 *)
Definition github_search_query (n_per_page : Z) (ii : nat) : M (list string) :=
  q <- gets (fun st => query (self st)) ;;
  let l := search_args n_per_page q in
  if Nat.eqb ii 0 then ret l
  else
    pi <- local pageInfo ;;
    cursor <- lift (getitem pi "endCursor") ;;
    ret (List.app l [after_arg cursor]).

(** Lines 125-129 *)
Definition ii_gql_query (args : list string) : string :=
  gql_template_format (join ", " args) comments_query base_elements.

(** The text of the exception of line 132. *)
Definition status_message (code : Z) (doc : string) : string :=
  "Query failed to run by returning code of " ++ str_int code ++ ". " ++ doc.

(** The text of the exception of line 134. *)
Definition errors_message (errors : pyval) (doc : string) : string :=
  "Query failed to run with error " ++ str repr_container errors ++ ". " ++ doc.

(** Lines 130-135: post the document and check the answer. *)
Definition fetch (doc : string) : M Response :=
  ii_request <- requests_post doc ;;
  if negb (status_code ii_request =? 200) then
    raise (Exception (status_message (status_code ii_request) doc))
  else
    ks <- lift (and_then (json ii_request) keys) ;;
    if existsb (String.eqb "errors") ks then
      errors <- lift (and_then (json ii_request) (fun j => getitem j "errors")) ;;
      raise (Exception (errors_message errors doc))
    else
      modify (with_self (set_last_request ii_request)) ;;
      ret ii_request.

(** Line 138: [ii_request.json()['data']['search']] *)
Definition search_of (r : Response) : result pyval :=
  and_then (and_then (json r) (fun j => getitem j "data"))
           (fun d => getitem d "search").

(** A response that gets through the checks of lines 131-134. *)
Definition accepted (r : Response) : bool :=
  (status_code r =? 200) &&
  match and_then (json r) keys with
  | Ok ks => negb (existsb (String.eqb "errors") ks)
  | Raise _ => false
  end.

(** What line 158 takes from a page. *)
Definition nodes_of (json : pyval) : result (list pyval) :=
  and_then (getitem json "nodes") iterate.

(** What line 164 and line 123 read from a page. *)
Definition hasNextPage_of (json : pyval) : result pyval :=
  and_then (getitem json "pageInfo") (fun pi => getitem pi "hasNextPage").

Definition endCursor_of (json : pyval) : result pyval :=
  and_then (getitem json "pageInfo") (fun pi => getitem pi "endCursor").

(** A first page that lines 140-155 go through: a count that is not
    zero, and a number of pages for the bar. *)
Definition counted (n_per_page : Z) (json : pyval) : bool :=
  match getitem json "issueCount" with
  | Ok issueCount =>
      negb (eq_int issueCount 0) &&
      match expected_pages issueCount n_per_page with
      | Ok n_pages => 0 <=? n_pages
      | Raise _ => false
      end
  | Raise _ => false
  end.

(** Lines 139-155: what only the first page does. *)
Definition first_page (n_per_page : Z) (json : pyval) : M flow :=
  issueCount <- lift (getitem json "issueCount") ;;
  if eq_int issueCount 0 then
    print "Found no entries for query." ;;
    modify (with_self (set_data Pd.empty)) ;;
    ret Return
  else
    n_pages <- lift (expected_pages issueCount n_per_page) ;;
    print ("Found " ++ str repr_container issueCount ++ " items, which will take "
           ++ str_int n_pages ++ " pages") ;;
    (if n_pages <? 0 then raise Unmodelled else ret tt) ;;
    modify (with_vars (set_prog
      {| Widgets.value := 0; Widgets.min := 0; Widgets.max := n_pages;
         Widgets.description := "Downloading:";
         Widgets.bar_style := EmptyString |})) ;;
    show <- gets (fun st => display_progress (self st)) ;;
    (if (1 <? n_pages) && show then display else ret tt) ;;
    ret Next.

(** Lines 157-166: keep the page, and stop on the last one. *)
Definition aggregate (json : pyval) (doc : string) : M flow :=
  nodes <- lift (nodes_of json) ;;
  modify (with_self (fun o =>
    set_issues_and_or_prs (List.app (issues_and_or_prs o) nodes) o)) ;;
  pi <- lift (getitem json "pageInfo") ;;
  modify (with_vars (set_pageInfo pi)) ;;
  modify (with_self (set_last_query doc)) ;;
  p <- local prog ;;
  modify (with_vars (set_prog (Widgets.increment p))) ;;
  hasNextPage <- lift (getitem pi "hasNextPage") ;;
  if is_False hasNextPage then
    modify (with_vars (set_prog
      (Widgets.set_bar_style "success" (Widgets.increment p)))) ;;
    ret Break
  else ret Next.

(** Lines 130-166: what pass [ii] does with its document. *)
Definition one_page (n_per_page : Z) (ii : nat) (doc : string) : M flow :=
  ii_request <- fetch doc ;;
  json <- lift (search_of ii_request) ;;
  f <- (if Nat.eqb ii 0 then first_page n_per_page json else ret Next) ;;
  match f with
  | Next => aggregate json doc
  | _ => ret f
  end.

(** Lines 117-166: the body of the [for] loop, at index [ii]. *)
Definition loop_body (n_per_page : Z) (ii : nat) : M flow :=
  args <- github_search_query n_per_page ii ;;
  one_page n_per_page ii (ii_gql_query args).

(** [for ii in range(...)]: [count] passes from index [ii] on.  The
    range is fixed when the loop starts: line 145 assigns [n_pages]
    again, and the loop does not see it. *)
Fixpoint for_range (body : nat -> M flow) (ii count : nat) : M loop_exit :=
  match count with
  | O => ret Exhausted
  | S count' =>
      f <- body ii ;;
      match f with
      | Next => for_range body (S ii) count'
      | Break => ret Broke
      | Return => ret Returned
      end
  end.

(** Line 172: [lambda a: a['login'] if a is not None else a] *)
Definition author_login (a : pyval) : result pyval :=
  if is_not_None a then getitem a "login" else Ok a.

(** Lines 173 and 174: [lambda a: a.split('/')[i]] *)
Definition url_segment (i : nat) (a : pyval) : result pyval :=
  match a with
  | PStr s => and_then (index (split "/"%char s) i) (fun x => Ok (PStr x))
  | _ => Raise AttributeError
  end.

(** [self.data[dst] = self.data[src].map(f)] *)
Definition derive (dst src : string) (f : pyval -> result pyval) : M unit :=
  d <- gets (fun st => data (self st)) ;;
  match d with
  | None => raise AttributeError
  | Some df =>
      s <- lift (and_then (Pd.column df src) (Pd.map_series f)) ;;
      modify (with_self (set_data (Pd.set_column df dst s)))
  end.

(** Lines 169-174: the frame and its three derived columns. *)
Definition finalize : M unit :=
  l <- gets (fun st => issues_and_or_prs (self st)) ;;
  df <- lift (Pd.of_list l) ;;
  modify (with_self (set_data df)) ;;
  derive "author" "author" author_login ;;
  derive "org" "url" (url_segment 3) ;;
  derive "repo" "url" (url_segment 4).

(** [request(self, n_pages=100, n_per_page=50)] *)
Definition request (n_pages n_per_page : Z) : M unit :=
  modify (with_self (set_issues_and_or_prs [])) ;;
  e <- for_range (loop_body n_per_page) 0 (Z.to_nat n_pages) ;;
  match e with
  | Returned => ret tt
  | Exhausted | Broke => finalize
  end.

(** The loop of [request] alone, to tell how it was left. *)
Definition pages (n_pages n_per_page : Z) : M loop_exit :=
  modify (with_self (set_issues_and_or_prs [])) ;;
  for_range (loop_body n_per_page) 0 (Z.to_nat n_pages).


(** ** What a run can be asked about *)

(** What the run leaves alone. *)
Definition static (st st' : state) : Prop :=
  query (self st') = query (self st) /\
  headers (self st') = headers (self st) /\
  display_progress (self st') = display_progress (self st).

(** The [k]-th post came back with a page after which the loop goes on:
    it got through the checks, and its [hasNextPage] is not [False]. *)
Definition continues (hdrs : list (string * string)) (k : nat) (doc : string) : Prop :=
  exists r s v,
    post k doc hdrs = Ok r /\ accepted r = true /\ search_of r = Ok s /\
    hasNextPage_of s = Ok v /\ is_False v = false.

(** What one pass of the body that posted [doc] as its [k]-th document
    makes of the answer. *)
Definition settles (hdrs : list (string * string)) (k : nat) (doc : string)
    (res : result flow) (st st' : state) : Prop :=
  (forall e, post k doc hdrs = Raise e -> res = Raise e) /\
  (forall r, post k doc hdrs = Ok r -> status_code r <> 200 ->
     res = Raise (Exception (status_message (status_code r) doc))) /\
  (forall r d errors, post k doc hdrs = Ok r -> status_code r = 200 ->
     body r = Some (PDict d) -> dict_get "errors" d = Some errors ->
     res = Raise (Exception (errors_message errors doc))) /\
  (forall r s, post k doc hdrs = Ok r -> search_of r = Ok s ->
     hasNextPage_of s = Ok (PBool false) ->
     res <> Ok Next /\
     (res = Ok Break ->
      exists nodes, nodes_of s = Ok nodes /\
        issues_and_or_prs (self st')
        = List.app (issues_and_or_prs (self st)) nodes)).

(** What the loop makes of the answer to the [k]-th post, once it is
    left. *)
Definition loop_settles (hdrs : list (string * string)) (k : nat) (doc : string)
    (res : result loop_exit) (st' : state) : Prop :=
  (forall e, post k doc hdrs = Raise e -> res = Raise e) /\
  (forall r, post k doc hdrs = Ok r -> status_code r <> 200 ->
     res = Raise (Exception (status_message (status_code r) doc))) /\
  (forall r d errors, post k doc hdrs = Ok r -> status_code r = 200 ->
     body r = Some (PDict d) -> dict_get "errors" d = Some errors ->
     res = Raise (Exception (errors_message errors doc))) /\
  (forall r s, post k doc hdrs = Ok r -> search_of r = Ok s ->
     hasNextPage_of s = Ok (PBool false) ->
     forall e, res = Ok e -> e <> Returned ->
     e = Broke /\
     exists prev nodes, nodes_of s = Ok nodes /\
       issues_and_or_prs (self st') = List.app prev nodes).

(** Lines 169-174 as a function of the records kept: the frame that
    [finalize] leaves in [self.data] when nothing raises. *)
Definition normalize (l : list pyval) : result Pd.DataFrame :=
  and_then (Pd.of_list l) (fun df0 =>
  and_then (and_then (Pd.column df0 "author") (Pd.map_series author_login)) (fun a =>
  let df1 := Pd.set_column df0 "author" a in
  and_then (and_then (Pd.column df1 "url") (Pd.map_series (url_segment 3))) (fun o =>
  let df2 := Pd.set_column df1 "org" o in
  and_then (and_then (Pd.column df2 "url") (Pd.map_series (url_segment 4))) (fun p =>
  Ok (Pd.set_column df2 "repo" p))))).

(** A record line 172 gets through: an [author] that is [None] or has
    a [login]. *)
Definition author_ok (d : list (string * pyval)) : bool :=
  match dict_get "author" d with
  | Some a => is_ok (author_login a)
  | None => false
  end.

(** The pieces of the [url] of a record, when it is a string. *)
Definition url_pieces (d : list (string * pyval)) : option (list string) :=
  match dict_get "url" d with
  | Some (PStr u) => Some (split "/"%char u)
  | _ => None
  end.

(** A record lines 173-174 can split: its [url] is a string. *)
Definition url_is_str (d : list (string * pyval)) : bool :=
  match url_pieces d with
  | Some _ => true
  | None => false
  end.

(** A record all of lines 172-174 get through. *)
Definition well_formed (d : list (string * pyval)) : bool :=
  author_ok d &&
  match url_pieces d with
  | Some pieces => (5 <=? List.length pieces)%nat
  | None => false
  end.

(** The state after line 115, when the loop starts. *)
Definition begun (obj : GitHubGraphQlQuery) : state :=
  with_self (set_issues_and_or_prs []) (start obj).

(** ** What a run keeps *)

(** The nodes line 158 takes from the answer to the [k]-th post. *)
Definition page_nodes (hdrs : list (string * string)) (k : nat) (doc : string)
    : list pyval :=
  match and_then (and_then (post k doc hdrs) search_of) nodes_of with
  | Ok nodes => nodes
  | Raise _ => []
  end.

(** The nodes of the answers to documents posted from the [k]-th on,
    page after page. *)
Fixpoint nodes_from (hdrs : list (string * string)) (k : nat) (docs : list string)
    : list pyval :=
  match docs with
  | [] => []
  | doc :: docs' => List.app (page_nodes hdrs k doc) (nodes_from hdrs (S k) docs')
  end.

(** How the loop is left after a pass that does not go on. *)
Definition exit_of (f : result flow) : result loop_exit :=
  match f with
  | Ok Next => Ok Exhausted
  | Ok Break => Ok Broke
  | Ok Return => Ok Returned
  | Raise e => Raise e
  end.

(** ** Running the pieces *)

Ltac run := unfold bind, ret, lift, gets, modify, raise, local in *.

Lemma bind_ok {A B} (m : M A) (k : A -> M B) st a st' :
  m st = (Ok a, st') -> bind m k st = k a st'.
Proof. intros H. unfold bind. rewrite H. reflexivity. Qed.

Lemma existsb_errors_dict d :
  existsb (String.eqb "errors") (map fst d) = dict_has "errors" d.
Proof.
  unfold dict_has.
  induction d as [|[k v] d IH]; [reflexivity|].
  cbn [map fst existsb dict_get].
  rewrite (String.eqb_sym "errors" k).
  destruct (String.eqb k "errors"); [reflexivity|]. exact IH.
Qed.

Lemma fetch_transport_raises doc st e :
  post (List.length (posted (world st))) doc (headers (self st)) = Raise e ->
  fetch doc st = (Raise e, record_post doc st).
Proof.
  intros H. unfold fetch, requests_post. run. rewrite H. reflexivity.
Qed.

Lemma fetch_status doc st r :
  post (List.length (posted (world st))) doc (headers (self st)) = Ok r ->
  status_code r <> 200 ->
  fetch doc st
  = (Raise (Exception (status_message (status_code r) doc)), record_post doc st).
Proof.
  intros H Hs. unfold fetch, requests_post. run. rewrite H.
  destruct (Z.eqb_spec (status_code r) 200); [contradiction|]. reflexivity.
Qed.

Lemma fetch_errors doc st r d errors :
  post (List.length (posted (world st))) doc (headers (self st)) = Ok r ->
  status_code r = 200 ->
  body r = Some (PDict d) ->
  dict_get "errors" d = Some errors ->
  fetch doc st
  = (Raise (Exception (errors_message errors doc)), record_post doc st).
Proof.
  intros H Hs Hb He. unfold fetch, requests_post. run. rewrite H.
  rewrite Hs. cbn [Z.eqb Pos.eqb negb]. unfold json. rewrite Hb.
  cbn [and_then keys getitem]. rewrite existsb_errors_dict.
  unfold dict_has. rewrite He. reflexivity.
Qed.

Lemma fetch_accepted doc st r :
  post (List.length (posted (world st))) doc (headers (self st)) = Ok r ->
  accepted r = true ->
  fetch doc st = (Ok r, with_self (set_last_request r) (record_post doc st)).
Proof.
  intros H Ha. unfold fetch, requests_post. run. rewrite H.
  unfold accepted in Ha. apply andb_true_iff in Ha as [Hs Hk].
  rewrite Hs. cbn [negb].
  destruct (and_then (json r) keys) as [ks|]; [|discriminate].
  apply negb_true_iff in Hk. rewrite Hk. reflexivity.
Qed.


Ltac split_match :=
  match goal with
  | H : context [match ?x with _ => _ end] |- _ =>
      lazymatch x with
      | context [match _ with _ => _ end] => fail
      | _ => destruct x eqn:?
      end
  | H : context [if ?x then _ else _] |- _ =>
      lazymatch x with
      | context [if _ then _ else _] => fail
      | context [match _ with _ => _ end] => fail
      | _ => destruct x eqn:?
      end
  end.

Lemma github_search_query_state n ii st res st' :
  github_search_query n ii st = (res, st') -> st' = st.
Proof.
  unfold github_search_query. run. intros H.
  repeat split_match; congruence.
Qed.

Lemma accepted_intro r ks :
  negb (status_code r =? 200) = false ->
  and_then (json r) keys = Ok ks ->
  existsb (String.eqb "errors") ks = false ->
  accepted r = true.
Proof.
  intros Hs Hk He. unfold accepted. rewrite Hk, He.
  apply negb_false_iff in Hs. rewrite Hs. reflexivity.
Qed.

Lemma errors_in_keys r d errors ks :
  body r = Some (PDict d) ->
  dict_get "errors" d = Some errors ->
  and_then (json r) keys = Ok ks ->
  existsb (String.eqb "errors") ks = true
  /\ and_then (json r) (fun j => getitem j "errors") = Ok errors.
Proof.
  unfold json. intros -> Hd. cbn [and_then keys getitem].
  intros [= <-]. rewrite existsb_errors_dict. unfold dict_has.
  rewrite Hd. split; reflexivity.
Qed.

Lemma status_200 r : negb (status_code r =? 200) = false -> status_code r = 200.
Proof. intros H. apply negb_false_iff in H. now apply Z.eqb_eq. Qed.

Lemma status_not_200 r : negb (status_code r =? 200) = true -> status_code r <> 200.
Proof. intros H. apply negb_true_iff in H. now apply Z.eqb_neq. Qed.

Ltac same_post :=
  match goal with
  | H1 : post ?k ?d ?h = _, H2 : post ?k ?d ?h = _ |- _ =>
      rewrite H1 in H2; first [discriminate H2 | injection H2 as ->]
  end.

Ltac settle :=
  unfold settles; repeat apply conj; intros;
  try same_post;
  try match goal with
      | H : negb (status_code _ =? 200) = false |- _ => apply status_200 in H
      | H : negb (status_code _ =? 200) = true |- _ => apply status_not_200 in H
      end;
  try congruence;
  try match goal with
      | Hb : body ?r = Some (PDict ?d), Hd : dict_get "errors" ?d = Some _,
        Hk : and_then (json ?r) keys = Ok _ |- _ =>
          destruct (errors_in_keys _ _ _ _ Hb Hd Hk); congruence
      | Hb : body ?r = Some (PDict ?d), Hd : dict_get "errors" ?d = Some _,
        Hk : and_then (json ?r) keys = Raise _ |- _ =>
          unfold json in Hk; rewrite Hb in Hk; discriminate Hk
      end.

Ltac same_search :=
  match goal with
  | H1 : search_of ?r = Ok _, H2 : search_of ?r = Ok _ |- _ =>
      rewrite H1 in H2; injection H2 as <-
  end.

Ltac last_page :=
  match goal with
  | H : hasNextPage_of ?s = Ok (PBool false),
    Hp : getitem ?s "pageInfo" = Ok ?pi,
    Hn : getitem ?pi "hasNextPage" = Ok ?v,
    Hf : is_False ?v = false |- _ =>
      unfold hasNextPage_of in H; rewrite Hp in H; cbn [and_then] in H;
      rewrite Hn in H; injection H as ->; discriminate Hf
  end.

Lemma loop_body_inv n ii st res st1 :
  loop_body n ii st = (res, st1) ->
  static st st1 /\
  ((posted (world st1) = posted (world st) /\ exists e, res = Raise e) \/
   exists doc,
     posted (world st1) = List.app (posted (world st)) [doc] /\
     settles (headers (self st)) (List.length (posted (world st))) doc res st st1 /\
     (res = Ok Next ->
      continues (headers (self st)) (List.length (posted (world st))) doc)).
Proof.
  unfold loop_body. unfold bind at 1.
  destruct (github_search_query n ii st) as [[args|e] st0] eqn:Hq;
    pose proof (github_search_query_state _ _ _ _ _ Hq) as ->.
  2:{ intros [= <- <-]. split; [repeat split|]. left. eauto. }
  set (doc := ii_gql_query args). clearbody doc.
  intros H.
  unfold one_page, fetch, requests_post, first_page, aggregate, print, display in H. run.
  cbn beta iota in H.
  repeat split_match.
  all: try match goal with H : (_, _) = (_, _) |- _ => injection H as <- <- end.
  all: (split; [repeat split|]).
  all: right; exists doc; split; [reflexivity|]; split; [settle|].
  all: try discriminate.
  all: try (split; [discriminate|intros HB; try discriminate HB]).
  all: try same_search.
  all: try (eexists; split; [eassumption|reflexivity]).
  all: try (exfalso; last_page).
  all: try (intros _; do 3 eexists; repeat apply conj;
            [ eassumption | eapply accepted_intro; eassumption | eassumption
            | unfold hasNextPage_of;
              match goal with
              | H : getitem ?s "pageInfo" = Ok _ |- context [getitem ?s "pageInfo"] =>
                  rewrite H; cbn [and_then]; eassumption
              end
            | assumption ]).
Qed.

Lemma app_one_inv {A} (l : list A) x y :
  List.app l [x] = List.app l [y] -> x = y.
Proof. intros H. apply app_inv_head in H. congruence. Qed.

Lemma app_one_neq {A} (l : list A) x : l <> List.app l [x].
Proof.
  intros H. apply (f_equal (@List.length A)) in H.
  rewrite length_app in H. cbn in H. lia.
Qed.

Ltac crunch_body H :=
  unfold one_page, fetch, requests_post, first_page, aggregate, print, display in H; run;
  cbn beta iota in H;
  repeat split_match;
  try match goal with
      | H : (_, _) = (_, _) |- _ => inversion H; clear H; subst
      end.

Lemma loop_body_next_prog n ii st st1 :
  loop_body n ii st = (Ok Next, st1) -> prog (vars st1) <> None.
Proof.
  unfold loop_body. unfold bind at 1.
  destruct (github_search_query n ii st) as [[args|e] st0] eqn:Hq;
    pose proof (github_search_query_state _ _ _ _ _ Hq) as ->; [|discriminate].
  remember (ii_gql_query args) as d eqn:Ed. clear Ed.
  intros H. crunch_body H.
  all: try congruence.
  all: cbn; discriminate.
Qed.


Ltac split_goal :=
  match goal with
  | |- context [match ?x with _ => _ end] =>
      lazymatch x with
      | context [match _ with _ => _ end] => fail
      | _ => destruct x eqn:?
      end
  | |- context [if ?x then _ else _] =>
      lazymatch x with
      | context [if _ then _ else _] => fail
      | context [match _ with _ => _ end] => fail
      | _ => destruct x eqn:?
      end
  end.

(** A first page with no entries: lines 140-143. *)
Lemma one_page_no_entries n doc st r s issueCount :
  post (List.length (posted (world st))) doc (headers (self st)) = Ok r ->
  accepted r = true ->
  search_of r = Ok s ->
  getitem s "issueCount" = Ok issueCount ->
  eq_int issueCount 0 = true ->
  exists st1,
    one_page n 0 doc st = (Ok Return, st1) /\
    data (self st1) = Some Pd.empty /\
    posted (world st1) = List.app (posted (world st)) [doc] /\
    printed (world st1)
    = List.app (printed (world st)) ["Found no entries for query."].
Proof.
  intros Hr Ha Hs Hc H0. unfold one_page.
  rewrite (bind_ok _ _ _ _ _ (fetch_accepted _ _ _ Hr Ha)).
  unfold first_page, print. run. rewrite Hs. cbn [Nat.eqb].
  rewrite Hc, H0. eexists. split; [reflexivity|]. repeat split.
Qed.

(** A page that is not the last one takes the loop to its next pass. *)
Lemma one_page_goes_on n ii doc st r s pi v nodes :
  post (List.length (posted (world st))) doc (headers (self st)) = Ok r ->
  accepted r = true ->
  search_of r = Ok s ->
  (ii = O -> counted n s = true) ->
  (ii <> O -> prog (vars st) <> None) ->
  nodes_of s = Ok nodes ->
  getitem s "pageInfo" = Ok pi ->
  getitem pi "hasNextPage" = Ok v ->
  is_False v = false ->
  exists st1,
    one_page n ii doc st = (Ok Next, st1) /\
    pageInfo (vars st1) = Some pi /\
    prog (vars st1) <> None /\
    posted (world st1) = List.app (posted (world st)) [doc] /\
    static st st1 /\
    issues_and_or_prs (self st1) = List.app (issues_and_or_prs (self st)) nodes.
Proof.
  intros Hr Ha Hs H0 Hprog Hn Hpi Hh Hv. unfold one_page.
  rewrite (bind_ok _ _ _ _ _ (fetch_accepted _ _ _ Hr Ha)).
  unfold first_page, aggregate, print, display. run. rewrite Hs.
  destruct ii as [|ii]; cbn [Nat.eqb].
  - specialize (H0 eq_refl). unfold counted in H0.
    destruct (getitem s "issueCount") as [c|]; [|discriminate].
    apply andb_true_iff in H0 as [Hz Hp]. apply negb_true_iff in Hz.
    rewrite Hz.
    destruct (expected_pages c n) as [np|]; [|discriminate].
    assert (Hneg : (np <? 0) = false) by (apply Z.ltb_ge; now apply Z.leb_le).
    rewrite Hneg.
    destruct ((1 <? np) && display_progress (self _)); cbn;
      rewrite Hn; cbn; rewrite Hpi; cbn; rewrite Hh, Hv;
      (eexists; split; [reflexivity|]; cbn; repeat split; discriminate).
  - assert (Hb : prog (vars st) <> None) by (apply Hprog; discriminate).
    rewrite Hn. cbn. rewrite Hpi. cbn.
    destruct (prog (vars st)) as [p|] eqn:Ep; [|contradiction].
    cbn. rewrite ?Ep. cbn. rewrite Hh, Hv.
    eexists; split; [reflexivity|]; cbn; repeat split; discriminate.
Qed.

Lemma static_refl st : static st st.
Proof. repeat split. Qed.

Lemma static_trans st1 st2 st3 : static st1 st2 -> static st2 st3 -> static st1 st3.
Proof. unfold static. intros (?&?&?) (?&?&?). repeat split; congruence. Qed.

Lemma accepted_status r : accepted r = true -> status_code r = 200.
Proof.
  unfold accepted. intros H. apply andb_true_iff in H as [H _].
  now apply Z.eqb_eq.
Qed.

Lemma accepted_no_errors r d errors :
  accepted r = true -> body r = Some (PDict d) ->
  dict_get "errors" d = Some errors -> False.
Proof.
  unfold accepted. intros H Hb Hd. apply andb_true_iff in H as [_ H].
  destruct (and_then (json r) keys) as [ks|] eqn:Hk; [|discriminate].
  destruct (errors_in_keys _ _ _ _ Hb Hd Hk) as [He _].
  rewrite He in H. discriminate.
Qed.

Lemma continues_not_last hdrs k doc r s :
  continues hdrs k doc -> post k doc hdrs = Ok r -> search_of r = Ok s ->
  hasNextPage_of s = Ok (PBool false) -> False.
Proof.
  intros (r' & s' & v & Hr & _ & Hs & Hh & Hv) Hr2 Hs2 Hh2.
  rewrite Hr in Hr2. injection Hr2 as ->.
  rewrite Hs in Hs2. injection Hs2 as ->.
  rewrite Hh in Hh2. injection Hh2 as ->. discriminate.
Qed.

Lemma continues_loop_settles hdrs k doc res st' :
  continues hdrs k doc -> loop_settles hdrs k doc res st'.
Proof.
  intros Hc. pose proof Hc as (r & s & v & Hr & Ha & Hs & Hh & Hv).
  repeat apply conj.
  - intros e He. congruence.
  - intros r' Hr' Hn. rewrite Hr in Hr'. injection Hr' as <-.
    now apply accepted_status in Ha.
  - intros r' d errors Hr' _ Hb Hd. rewrite Hr in Hr'. injection Hr' as <-.
    destruct (accepted_no_errors _ _ _ Ha Hb Hd).
  - intros r' s' Hr' Hs' Hl. destruct (continues_not_last _ _ _ _ _ Hc Hr' Hs' Hl).
Qed.

Lemma settles_left hdrs k doc f st st1 res :
  settles hdrs k doc f st st1 ->
  (forall e, f = Raise e -> res = Raise e) ->
  (f = Ok Break -> res = Ok Broke) ->
  (f = Ok Return -> res = Ok Returned) ->
  loop_settles hdrs k doc res st1.
Proof.
  intros (S1 & S2 & S3 & S4) Hraise Hbreak Hreturn. repeat apply conj.
  - intros e He. apply Hraise. now apply S1.
  - intros r Hr Hn. apply Hraise. now apply S2.
  - intros r d errors Hr Hs Hb Hd. apply Hraise. eapply S3; eassumption.
  - intros r s Hr Hs Hl e He Hne.
    destruct (S4 _ _ Hr Hs Hl) as [Hnn Hbr].
    destruct f as [[| |]|e0].
    + contradiction.
    + rewrite (Hbreak eq_refl) in He. injection He as <-.
      split; [reflexivity|].
      destruct (Hbr eq_refl) as (nodes & Hn & Hi). eauto.
    + rewrite (Hreturn eq_refl) in He. congruence.
    + rewrite (Hraise _ eq_refl) in He. discriminate.
Qed.

(** The loop, read backwards from where it was left. *)
Lemma for_range_inv n count : forall ii st res st',
  for_range (loop_body n) ii count st = (res, st') ->
  static st st' /\
  exists docs,
    posted (world st') = List.app (posted (world st)) docs /\
    (List.length docs <= count)%nat /\
    (res = Ok Exhausted -> List.length docs = count) /\
    forall j doc, nth_error docs j = Some doc ->
      loop_settles (headers (self st)) (List.length (posted (world st)) + j) doc res st' /\
      (S j < List.length docs ->
       continues (headers (self st)) (List.length (posted (world st)) + j) doc)%nat.
Proof.
  induction count as [|count IH]; intros ii st res st'; cbn [for_range].
  - intros [= <- <-]. split; [apply static_refl|]. exists [].
    rewrite app_nil_r.
    split; [reflexivity|]. split; [cbn; lia|]. split; [reflexivity|].
    intros [|j] doc H; discriminate H.
  - unfold bind at 1.
    destruct (loop_body n ii st) as [[f|e] st1] eqn:Hb;
      destruct (loop_body_inv _ _ _ _ _ Hb) as [Hst Hcases].
    + destruct Hcases as [[_ [e He]]|(doc & Hp & Hset & Hnext)]; [discriminate|].
      assert (Hone : forall res0,
                 (forall e, Ok f = Raise e -> res0 = Raise e) ->
                 (Ok f = Ok Break -> res0 = Ok Broke) ->
                 (Ok f = Ok Return -> res0 = Ok Returned) ->
                 res0 <> Ok Exhausted ->
                 static st st1 /\
                 exists docs,
                   posted (world st1) = List.app (posted (world st)) docs /\
                   (List.length docs <= S count)%nat /\
                   (res0 = Ok Exhausted -> List.length docs = S count) /\
                   forall j doc, nth_error docs j = Some doc ->
                     loop_settles (headers (self st))
                       (List.length (posted (world st)) + j) doc res0 st1 /\
                     (S j < List.length docs ->
                      continues (headers (self st))
                        (List.length (posted (world st)) + j) doc)%nat).
      { intros res0 H1 H2 H3 H4. split; [exact Hst|]. exists [doc].
        split; [exact Hp|]. split; [cbn; lia|]. split; [contradiction|].
        intros [|[|j]] doc0 H; cbn [nth_error] in H; try discriminate H.
        injection H as <-. rewrite Nat.add_0_r. split.
        - eapply settles_left; eassumption.
        - cbn. lia. }
      destruct f.
      * intros Hrec. specialize (Hnext eq_refl). clear Hone.
        destruct (IH _ _ _ _ Hrec) as (Hst' & docs & Hp' & Hlen & Hex & Hall).
        split; [eapply static_trans; eassumption|].
        exists (doc :: docs). rewrite Hp', Hp, <- app_assoc.
        cbn [List.app List.length].
        split; [reflexivity|]. split; [lia|].
        split; [intros E; rewrite (Hex E); reflexivity|].
        destruct Hst as (_ & Hh & _).
        intros [|j] doc0 H; cbn [nth_error] in H.
        -- injection H as <-. rewrite Nat.add_0_r. split.
           ++ now apply continues_loop_settles.
           ++ intros _. exact Hnext.
        -- destruct (Hall _ _ H) as [Hs Hc].
           rewrite Hh in Hs, Hc. rewrite Hp, length_app in Hs, Hc.
           cbn [List.length] in Hs, Hc.
           replace (List.length (posted (world st)) + S j)%nat
             with (List.length (posted (world st)) + 1 + j)%nat by lia.
           split; [exact Hs|]. intros Hj. apply Hc. lia.
      * intros [= <- <-]. apply Hone; congruence.
      * intros [= <- <-]. apply Hone; congruence.
    + intros [= <- <-]. split; [exact Hst|].
      destruct Hcases as [[Hp _]|(doc & Hp & Hset & _)].
      * exists []. rewrite app_nil_r.
        split; [exact Hp|]. split; [cbn; lia|]. split; [discriminate|].
        intros [|j] doc H; discriminate H.
      * exists [doc].
        split; [exact Hp|]. split; [cbn; lia|]. split; [discriminate|].
        intros [|[|j]] doc0 H; cbn [nth_error] in H; try discriminate H.
        injection H as <-. rewrite Nat.add_0_r. split.
        -- eapply settles_left; try eassumption; congruence.
        -- cbn. lia.
Qed.

(** ** The frame *)

Lemma finalize_normalize st :
  fst (finalize st) = and_then (normalize (issues_and_or_prs (self st))) (fun _ => Ok tt)
  /\ (forall df, normalize (issues_and_or_prs (self st)) = Ok df ->
      data (self (snd (finalize st))) = Some df)
  /\ world (snd (finalize st)) = world st
  /\ vars (snd (finalize st)) = vars st
  /\ issues_and_or_prs (self (snd (finalize st))) = issues_and_or_prs (self st).
Proof.
  unfold finalize, derive, normalize. run. cbn.
  destruct (Pd.of_list (issues_and_or_prs (self st))) as [df0|e]; cbn;
    [|repeat split; discriminate].
  destruct (Pd.column df0 "author") as [c|e]; cbn; [|repeat split; discriminate].
  destruct (Pd.map_series author_login c) as [a|e]; cbn;
    [|repeat split; discriminate].
  destruct (Pd.column (Pd.set_column df0 "author" a) "url") as [u|e]; cbn;
    [|repeat split; discriminate].
  destruct (Pd.map_series (url_segment 3) u) as [o|e]; cbn;
    [|repeat split; discriminate].
  destruct (Pd.column (Pd.set_column (Pd.set_column df0 "author" a) "org" o) "url")
    as [u'|e]; cbn; [|repeat split; discriminate].
  destruct (Pd.map_series (url_segment 4) u') as [p|e]; cbn;
    [|repeat split; discriminate].
  repeat split. intros df [= <-]. reflexivity.
Qed.

Lemma as_records_inv l : forall rs, Pd.as_records l = Some rs -> l = map PDict rs.
Proof.
  induction l as [|x l IH]; intros rs; cbn [Pd.as_records].
  - intros [= <-]. reflexivity.
  - destruct x; try discriminate.
    destruct (Pd.as_records l) as [rs'|]; [|discriminate].
    intros [= <-]. cbn [map]. f_equal. now apply IH.
Qed.

Lemma as_records_map rs : Pd.as_records (map PDict rs) = Some rs.
Proof.
  induction rs as [|d rs IH]; [reflexivity|].
  cbn [map Pd.as_records]. rewrite IH. reflexivity.
Qed.

Lemma dict_get_in k d v : dict_get k d = Some v -> In k (map fst d).
Proof.
  induction d as [|[k' v'] d IH]; cbn [dict_get map fst]; [discriminate|].
  destruct (String.eqb_spec k' k); [left; assumption|].
  intros H. right. now apply IH.
Qed.

Lemma add_key_in acc k x : In x (Pd.add_key acc k) <-> In x acc \/ x = k.
Proof.
  unfold Pd.add_key. destruct (existsb (String.eqb k) acc) eqn:E.
  - split; [auto|]. intros [H| ->]; [assumption|].
    apply existsb_exists in E as (y & Hy & Heq).
    apply String.eqb_eq in Heq. now subst.
  - rewrite in_app_iff. cbn [In]. intuition congruence.
Qed.

Lemma fold_add_key_in ks : forall acc x,
  In x (fold_left Pd.add_key ks acc) <-> In x acc \/ In x ks.
Proof.
  induction ks as [|k ks IH]; intros acc x; cbn [fold_left In].
  - tauto.
  - rewrite IH, add_key_in. intuition congruence.
Qed.

Lemma union_keys_from rs : forall acc x,
  In x (fold_left (fun acc (d : list (string * pyval)) =>
                   fold_left Pd.add_key (map fst d) acc) rs acc)
  <-> In x acc \/ exists d, In d rs /\ In x (map fst d).
Proof.
  induction rs as [|d rs IH]; intros acc x; cbn [fold_left].
  - split; [auto|]. intros [H|(d & [] & _)]. exact H.
  - rewrite IH, fold_add_key_in. split.
    + intros [[H|H]|(d' & Hd & Hx)]; [auto | right | right].
      * exists d. split; [now left|assumption].
      * exists d'. split; [now right|assumption].
    + intros [H|(d' & [<-|Hd] & Hx)]; [auto | auto | right].
      exists d'. auto.
Qed.

Lemma union_keys_in rs x :
  In x (Pd.union_keys rs) <-> exists d, In d rs /\ In x (map fst d).
Proof.
  unfold Pd.union_keys. rewrite union_keys_from. cbn [In]. tauto.
Qed.

Lemma column_frame (f : string -> Pd.Series) ks k :
  In k ks -> Pd.column (map (fun k => (k, f k)) ks) k = Ok (f k).
Proof.
  induction ks as [|k0 ks IH]; cbn [In map Pd.column]; [contradiction|].
  destruct (String.eqb_spec k0 k) as [->|Hne]; [reflexivity|].
  intros [H|H]; [contradiction|]. now apply IH.
Qed.

(** The column of a key that some record has: one cell per record. *)
Lemma column_of_records rs k d v :
  In d rs -> dict_get k d = Some v ->
  and_then (Pd.of_list (map PDict rs)) (fun df => Pd.column df k)
  = Ok (map (Pd.cell k) rs).
Proof.
  intros Hd Hk. unfold Pd.of_list. rewrite as_records_map. cbn [and_then].
  apply (column_frame (fun k => map (Pd.cell k) rs)).
  apply union_keys_in. exists d. split; [assumption|].
  eapply dict_get_in; eassumption.
Qed.

Lemma column_set_same df c s : Pd.column (Pd.set_column df c s) c = Ok s.
Proof.
  induction df as [|[k s0] df IH]; cbn [Pd.set_column Pd.column].
  - rewrite String.eqb_refl. reflexivity.
  - destruct (String.eqb k c) eqn:E; cbn [Pd.column]; rewrite E; [reflexivity|].
    exact IH.
Qed.

Lemma column_set_other df c s c' :
  String.eqb c c' = false ->
  Pd.column (Pd.set_column df c s) c' = Pd.column df c'.
Proof.
  intros Hne. induction df as [|[k s0] df IH]; cbn [Pd.set_column Pd.column].
  - rewrite Hne. reflexivity.
  - destruct (String.eqb k c) eqn:E; cbn [Pd.column].
    + apply String.eqb_eq in E. subst k. rewrite Hne. reflexivity.
    + destruct (String.eqb k c'); [reflexivity|]. exact IH.
Qed.

Lemma map_series_nth f : forall s s' i x,
  Pd.map_series f s = Ok s' -> nth_error s i = Some x ->
  exists y, f x = Ok y /\ nth_error s' i = Some y.
Proof.
  induction s as [|x0 s IH]; intros s' i x; cbn [Pd.map_series].
  - intros _ H. destruct i; discriminate.
  - destruct (f x0) as [y0|] eqn:E0; [|discriminate].
    destruct (Pd.map_series f s) as [ys|] eqn:Es; [|discriminate].
    intros [= <-]. destruct i as [|i]; cbn [nth_error].
    + intros [= <-]. eauto.
    + intros H. eapply IH; [reflexivity|eassumption].
Qed.

Lemma map_series_ok f s :
  (forall x, In x s -> is_ok (f x) = true) -> is_ok (Pd.map_series f s) = true.
Proof.
  induction s as [|x0 s IH]; intros H; cbn [Pd.map_series]; [reflexivity|].
  pose proof (H x0 (or_introl eq_refl)) as H0.
  destruct (f x0); [|discriminate].
  assert (Hs : is_ok (Pd.map_series f s) = true)
    by (apply IH; intros x Hx; apply H; now right).
  destruct (Pd.map_series f s); [reflexivity|discriminate].
Qed.

Lemma map_series_raise f : forall s e,
  Pd.map_series f s = Raise e -> exists x, In x s /\ f x = Raise e.
Proof.
  induction s as [|x0 s IH]; intros e; cbn [Pd.map_series]; [discriminate|].
  destruct (f x0) as [y0|e0] eqn:E0.
  - destruct (Pd.map_series f s) as [ys|e1] eqn:Es; [discriminate|].
    intros [= <-]. destruct (IH _ eq_refl) as (x & Hx & Hf).
    exists x. split; [now right|assumption].
  - intros [= <-]. exists x0. split; [now left|assumption].
Qed.

Lemma column_frame_ok (f : string -> Pd.Series) ks k s :
  Pd.column (map (fun k => (k, f k)) ks) k = Ok s -> s = f k.
Proof.
  induction ks as [|k0 ks IH]; cbn [map Pd.column]; [discriminate|].
  destruct (String.eqb_spec k0 k) as [->|Hne]; [congruence|]. exact IH.
Qed.

(** What a frame that came out of lines 169-174 is made of. *)
Lemma normalize_inv l df :
  normalize l = Ok df ->
  exists rs a o p,
    l = map PDict rs /\
    Pd.map_series author_login (map (Pd.cell "author") rs) = Ok a /\
    Pd.map_series (url_segment 3) (map (Pd.cell "url") rs) = Ok o /\
    Pd.map_series (url_segment 4) (map (Pd.cell "url") rs) = Ok p /\
    Pd.column df "author" = Ok a /\
    Pd.column df "org" = Ok o /\
    Pd.column df "repo" = Ok p.
Proof.
  unfold normalize, Pd.of_list.
  destruct (Pd.as_records l) as [rs|] eqn:Hrs; [|discriminate].
  apply as_records_inv in Hrs. cbn [and_then].
  set (df0 := map (fun k => (k, map (Pd.cell k) rs)) (Pd.union_keys rs)).
  destruct (Pd.column df0 "author") as [c|] eqn:Hc; [|discriminate].
  apply (column_frame_ok (fun k => map (Pd.cell k) rs)) in Hc. subst c.
  cbn [and_then].
  destruct (Pd.map_series author_login _) as [a|] eqn:Ha; [|discriminate].
  cbn [and_then]. rewrite column_set_other by reflexivity.
  destruct (Pd.column df0 "url") as [c|] eqn:Hc; [|discriminate].
  apply (column_frame_ok (fun k => map (Pd.cell k) rs)) in Hc. subst c.
  cbn [and_then].
  destruct (Pd.map_series (url_segment 3) _) as [o|] eqn:Ho; [|discriminate].
  cbn [and_then]. rewrite column_set_other by reflexivity.
  rewrite column_set_other by reflexivity.
  destruct (Pd.column df0 "url") as [c|] eqn:Hc; [|discriminate].
  apply (column_frame_ok (fun k => map (Pd.cell k) rs)) in Hc. subst c.
  cbn [and_then].
  destruct (Pd.map_series (url_segment 4) _) as [p|] eqn:Hp; [|discriminate].
  intros [= <-]. exists rs, a, o, p.
  repeat (split; [assumption || reflexivity|]).
  split; [|split].
  - rewrite !column_set_other by reflexivity. apply column_set_same.
  - rewrite column_set_other by reflexivity. apply column_set_same.
  - apply column_set_same.
Qed.

Lemma cell_get k d v : dict_get k d = Some v -> Pd.cell k d = v.
Proof. unfold Pd.cell. now intros ->. Qed.

(** Row [i] of a frame that came out of lines 169-174. *)
Lemma normalize_row l df i d :
  normalize l = Ok df ->
  nth_error l i = Some (PDict d) ->
  exists a o p,
    author_login (Pd.cell "author" d) = Ok a /\
    url_segment 3 (Pd.cell "url" d) = Ok o /\
    url_segment 4 (Pd.cell "url" d) = Ok p /\
    Pd.at_ df "author" i = Some a /\
    Pd.at_ df "org" i = Some o /\
    Pd.at_ df "repo" i = Some p.
Proof.
  intros Hn Hi.
  destruct (normalize_inv _ _ Hn) as (rs & a & o & p & -> & Ha & Ho & Hp & Ca & Co & Cp).
  rewrite nth_error_map in Hi.
  destruct (nth_error rs i) as [d'|] eqn:Hd; [|discriminate].
  injection Hi as ->.
  assert (Hc : forall k, nth_error (map (Pd.cell k) rs) i = Some (Pd.cell k d))
    by (intros k; rewrite nth_error_map, Hd; reflexivity).
  destruct (map_series_nth _ _ _ _ _ Ha (Hc _)) as (ya & Ea & Na).
  destruct (map_series_nth _ _ _ _ _ Ho (Hc _)) as (yo & Eo & No).
  destruct (map_series_nth _ _ _ _ _ Hp (Hc _)) as (yp & Ep & Np).
  exists ya, yo, yp. unfold Pd.at_. rewrite Ca, Co, Cp. auto 10.
Qed.

(** Records that lines 169-174 get through. *)
Lemma normalize_ok d rs :
  forallb well_formed (d :: rs) = true ->
  is_ok (normalize (map PDict (d :: rs))) = true.
Proof.
  intros Hwf. rewrite forallb_forall in Hwf.
  assert (Hd : In d (d :: rs)) by now left.
  set (l := d :: rs) in *. clearbody l.
  assert (Hcell : forall x, In x l ->
            is_ok (author_login (Pd.cell "author" x)) = true /\
            exists u, Pd.cell "url" x = PStr u /\
                      (5 <= List.length (split "/"%char u))%nat).
  { intros x Hx. specialize (Hwf x Hx). unfold well_formed in Hwf.
    apply andb_true_iff in Hwf as [H1 H2]. unfold author_ok in H1.
    unfold url_pieces in H2. unfold Pd.cell.
    destruct (dict_get "author" x); [|discriminate].
    split; [exact H1|].
    destruct (dict_get "url" x) as [[]|]; try discriminate.
    eexists. split; [reflexivity|]. now apply Nat.leb_le. }
  destruct (Hcell d Hd) as [Hda (u & Hdu & _)].
  assert (Ka : exists v, dict_get "author" d = Some v).
  { specialize (Hwf d Hd). unfold well_formed, author_ok in Hwf.
    destruct (dict_get "author" d); [eauto|discriminate]. }
  assert (Ku : exists v, dict_get "url" d = Some v).
  { specialize (Hwf d Hd). unfold well_formed, url_pieces in Hwf.
    destruct (dict_get "url" d); [eauto|].
    rewrite andb_false_r in Hwf. discriminate. }
  destruct Ka as [va Ka], Ku as [vu Ku].
  pose proof (column_of_records l _ _ _ Hd Ka) as Ca.
  pose proof (column_of_records l _ _ _ Hd Ku) as Cu.
  unfold normalize.
  destruct (Pd.of_list (map PDict l)) as [df0|]; [|discriminate].
  cbn [and_then] in *. rewrite Ca. cbn [and_then].
  assert (Sa : is_ok (Pd.map_series author_login (map (Pd.cell "author") l)) = true).
  { apply map_series_ok. intros x Hx. apply in_map_iff in Hx as (y & <- & Hy).
    now apply Hcell. }
  destruct (Pd.map_series author_login _) as [a|]; [|discriminate].
  cbn [and_then]. rewrite column_set_other by reflexivity. rewrite Cu.
  cbn [and_then].
  assert (Su : forall i, (i < 5)%nat ->
            is_ok (Pd.map_series (url_segment i) (map (Pd.cell "url") l)) = true).
  { intros i Hi. apply map_series_ok. intros x Hx.
    apply in_map_iff in Hx as (y & <- & Hy).
    destruct (Hcell y Hy) as [_ (u' & -> & Hlen)].
    unfold url_segment, index.
    destruct (nth_error (split "/"%char u') i) eqn:E; [reflexivity|].
    apply nth_error_None in E. lia. }
  pose proof (Su 3%nat ltac:(lia)) as S3. pose proof (Su 4%nat ltac:(lia)) as S4.
  destruct (Pd.map_series (url_segment 3) _) as [o|]; [|discriminate].
  cbn [and_then]. rewrite !column_set_other by reflexivity. rewrite Cu.
  cbn [and_then].
  destruct (Pd.map_series (url_segment 4) _) as [p|]; [|discriminate].
  reflexivity.
Qed.

(** ** The derived columns *)

Lemma finalize_ok_frame st st' :
  finalize st = (Ok tt, st') ->
  exists df, normalize (issues_and_or_prs (self st)) = Ok df /\
             data (self st') = Some df.
Proof.
  intros H. destruct (finalize_normalize st) as (Hf & Hd & _).
  rewrite H in Hf, Hd. cbn [fst snd] in Hf, Hd.
  destruct (normalize (issues_and_or_prs (self st))) as [df|]; [|discriminate].
  exists df. split; [reflexivity|]. now apply Hd.
Qed.

Lemma finalize_ok_of_normalize st :
  is_ok (normalize (issues_and_or_prs (self st))) = true ->
  fst (finalize st) = Ok tt.
Proof.
  intros H. destruct (finalize_normalize st) as (-> & _).
  destruct (normalize _); [reflexivity|discriminate].
Qed.

Lemma url_segment_pieces d pieces i :
  url_pieces d = Some pieces ->
  url_segment i (Pd.cell "url" d) = and_then (index pieces i) (fun x => Ok (PStr x)).
Proof.
  unfold url_pieces, Pd.cell.
  destruct (dict_get "url" d) as [[]|]; try discriminate.
  intros [= <-]. reflexivity.
Qed.

Lemma well_formed_intro d a pieces :
  dict_get "author" d = Some a ->
  is_ok (author_login a) = true ->
  url_pieces d = Some pieces ->
  (5 <= List.length pieces)%nat ->
  well_formed d = true.
Proof.
  intros Ha Hok Hp Hlen. unfold well_formed, author_ok. rewrite Ha, Hok, Hp.
  now apply Nat.leb_le.
Qed.

(** C6. A record whose author is a mapping with login [L] and whose
    url, split on [/], has [ORG] as piece 3 and [REPO] as piece 4
    (counting from zero) is normalized to author [L], org [ORG] and
    repo [REPO]: that is its row in every frame [finalize] builds, and
    [finalize] does build one when the record is alone. *)
Theorem author_org_repo_of_a_record st i d a L u ORG REPO :
  nth_error (issues_and_or_prs (self st)) i = Some (PDict d) ->
  dict_get "author" d = Some (PDict a) ->
  dict_get "login" a = Some L ->
  dict_get "url" d = Some (PStr u) ->
  nth_error (split "/"%char u) 3 = Some ORG ->
  nth_error (split "/"%char u) 4 = Some REPO ->
  (forall st', finalize st = (Ok tt, st') ->
     exists df, data (self st') = Some df /\
       Pd.at_ df "author" i = Some L /\
       Pd.at_ df "org" i = Some (PStr ORG) /\
       Pd.at_ df "repo" i = Some (PStr REPO)) /\
  (issues_and_or_prs (self st) = [PDict d] -> fst (finalize st) = Ok tt).
Proof.
  intros Hi Ha HL Hu H3 H4.
  assert (Hp : url_pieces d = Some (split "/"%char u))
    by (unfold url_pieces; now rewrite Hu).
  split.
  - intros st' Hf. destruct (finalize_ok_frame _ _ Hf) as (df & Hn & Hd).
    exists df. split; [exact Hd|].
    destruct (normalize_row _ _ _ _ Hn Hi)
      as (ya & yo & yp & Ea & Eo & Ep & -> & -> & ->).
    rewrite (cell_get _ _ _ Ha) in Ea.
    rewrite (url_segment_pieces _ _ _ Hp) in Eo.
    rewrite (url_segment_pieces _ _ _ Hp) in Ep.
    unfold index in Eo, Ep. rewrite H3 in Eo. rewrite H4 in Ep.
    cbn in Ea, Eo, Ep. rewrite HL in Ea.
    injection Ea as <-. injection Eo as <-. injection Ep as <-. auto.
  - intros Hl. apply finalize_ok_of_normalize. rewrite Hl.
    apply (normalize_ok d []). cbn [forallb]. rewrite andb_true_r.
    eapply well_formed_intro; [exact Ha | cbn; now rewrite HL | exact Hp |].
    assert (4 < List.length (split "/"%char u))%nat; [|lia].
    apply nth_error_Some. congruence.
Qed.

(** C7. A record whose author is null is normalized without raising
    on that account, and its author is a missing-value marker in the
    table.  Line 172 does not subscript [None]: the lambda returns it.
    In every frame [finalize] builds, the row of the record has that
    [None] as its author, so that the column holds [None] or [nan]
    there, whichever way pandas stores it: a marker that [pd.isna]
    recognises.  And [finalize] does build a frame when the record is
    alone and its url has its five pieces. *)
Theorem null_author_is_absent st i d :
  nth_error (issues_and_or_prs (self st)) i = Some (PDict d) ->
  dict_get "author" d = Some PNone ->
  author_login PNone = Ok PNone /\
  (forall st', finalize st = (Ok tt, st') ->
     exists df a,
       data (self st') = Some df /\ Pd.at_ df "author" i = Some a /\
       forall w, Pd.stored a w -> Pd.isna w = true) /\
  (forall pieces,
     issues_and_or_prs (self st) = [PDict d] ->
     url_pieces d = Some pieces -> (5 <= List.length pieces)%nat ->
     fst (finalize st) = Ok tt).
Proof.
  intros Hi Ha. split; [reflexivity|]. split.
  - intros st' Hf. destruct (finalize_ok_frame _ _ Hf) as (df & Hn & Hd).
    destruct (normalize_row _ _ _ _ Hn Hi) as (ya & _ & _ & Ea & _ & _ & Hat & _).
    rewrite (cell_get _ _ _ Ha) in Ea. cbn in Ea.
    exists df, ya. split; [exact Hd|]. split; [exact Hat|].
    assert (ya = PNone) as -> by congruence.
    intros w [-> | [_ ->]]; reflexivity.
  - intros pieces Hl Hp Hlen. apply finalize_ok_of_normalize. rewrite Hl.
    apply (normalize_ok d []). cbn [forallb]. rewrite andb_true_r.
    eapply well_formed_intro; [exact Ha | reflexivity | exact Hp | exact Hlen].
Qed.

Lemma column_raise df k : forall e, Pd.column df k = Raise e -> e = KeyError k.
Proof.
  induction df as [|[k0 s] df IH]; intros e; cbn [Pd.column]; [congruence|].
  destruct (String.eqb k0 k); [discriminate|]. apply IH.
Qed.

Lemma author_login_raise a e : author_login a = Raise e -> e <> Unmodelled.
Proof.
  unfold author_login, getitem.
  destruct a; cbn [is_not_None]; try congruence.
  destruct (dict_get "login" d); congruence.
Qed.

Lemma url_segment_raise i a e :
  url_segment i a = Raise e -> e = IndexError \/ e = AttributeError.
Proof.
  unfold url_segment, index. destruct a; try (intros [= <-]; auto).
  destruct (nth_error _ i); cbn [and_then]; [discriminate|].
  intros [= <-]. auto.
Qed.

Lemma url_segment_str_raise i d e :
  url_is_str d = true -> url_segment i (Pd.cell "url" d) = Raise e -> e = IndexError.
Proof.
  unfold url_is_str. destruct (url_pieces d) as [pieces|] eqn:Hp; [|discriminate].
  intros _. rewrite (url_segment_pieces _ _ _ Hp). unfold index.
  destruct (nth_error pieces i); cbn [and_then]; congruence.
Qed.

Lemma url_segment_short d pieces y :
  url_pieces d = Some pieces -> (List.length pieces < 5)%nat ->
  url_segment 4 (Pd.cell "url" d) = Ok y -> False.
Proof.
  intros Hp Hlen. rewrite (url_segment_pieces _ _ _ Hp). unfold index.
  destruct (nth_error pieces 4) eqn:E; cbn [and_then]; [|discriminate].
  intros _. assert (4 < List.length pieces)%nat; [|lia].
  apply nth_error_Some. congruence.
Qed.

(** A frame is never built over a record with a short url. *)
Lemma normalize_short_url rs d pieces df :
  In d rs -> url_pieces d = Some pieces -> (List.length pieces < 5)%nat ->
  normalize (map PDict rs) = Ok df -> False.
Proof.
  intros Hd Hp Hlen Hn.
  destruct (normalize_inv _ _ Hn) as (rs' & a & o & p & Hrs & _ & _ & Hs & _).
  assert (rs' = rs) as ->.
  { apply (f_equal Pd.as_records) in Hrs. rewrite !as_records_map in Hrs.
    congruence. }
  apply In_nth_error in Hd as [i Hi].
  assert (Hc : nth_error (map (Pd.cell "url") rs) i = Some (Pd.cell "url" d))
    by (rewrite nth_error_map, Hi; reflexivity).
  destruct (map_series_nth _ _ _ _ _ Hs Hc) as (y & Ey & _).
  eapply url_segment_short; eassumption.
Qed.

Lemma normalize_raise rs e :
  normalize (map PDict rs) = Raise e -> e <> Unmodelled.
Proof.
  unfold normalize, Pd.of_list. rewrite as_records_map. cbn [and_then].
  set (df0 := map (fun k => (k, map (Pd.cell k) rs)) (Pd.union_keys rs)).
  destruct (Pd.column df0 "author") as [c|e0] eqn:Hc; cbn [and_then].
  2:{ intros [= <-]. apply column_raise in Hc. congruence. }
  destruct (Pd.map_series author_login c) as [a|e0] eqn:Ha; cbn [and_then].
  2:{ intros [= <-]. apply map_series_raise in Ha as (x & _ & Hx).
      eapply author_login_raise; eassumption. }
  rewrite column_set_other by reflexivity.
  destruct (Pd.column df0 "url") as [c1|e0] eqn:Hc1; cbn [and_then].
  2:{ intros [= <-]. apply column_raise in Hc1. congruence. }
  destruct (Pd.map_series (url_segment 3) c1) as [o|e0] eqn:Ho; cbn [and_then].
  2:{ intros [= <-]. apply map_series_raise in Ho as (x & _ & Hx).
      apply url_segment_raise in Hx as [->| ->]; discriminate. }
  rewrite !column_set_other by reflexivity. rewrite Hc1. cbn [and_then].
  destruct (Pd.map_series (url_segment 4) c1) as [p|e0] eqn:Hp; cbn [and_then].
  1: discriminate.
  intros [= <-]. apply map_series_raise in Hp as (x & _ & Hx).
  apply url_segment_raise in Hx as [->| ->]; discriminate.
Qed.

(** With authors line 172 gets through and urls that are strings, a
    short url is an [IndexError]. *)
Lemma normalize_index_error rs d pieces :
  In d rs -> url_pieces d = Some pieces -> (List.length pieces < 5)%nat ->
  forallb (fun x => author_ok x && url_is_str x) rs = true ->
  normalize (map PDict rs) = Raise IndexError.
Proof.
  intros Hd Hp Hlen Hall. rewrite forallb_forall in Hall.
  assert (Hx : forall x, In x rs -> author_ok x = true /\ url_is_str x = true)
    by (intros x H; apply andb_true_iff; now apply Hall).
  destruct (normalize (map PDict rs)) as [df|e] eqn:Hn.
  { destruct (normalize_short_url _ _ _ _ Hd Hp Hlen Hn). }
  f_equal. revert Hn. unfold normalize.
  destruct (Hx d Hd) as [Had _]. unfold author_ok in Had.
  destruct (dict_get "author" d) as [va|] eqn:Ka; [|discriminate].
  assert (Ku : exists vu, dict_get "url" d = Some vu).
  { unfold url_pieces in Hp. destruct (dict_get "url" d); [eauto|discriminate]. }
  destruct Ku as [vu Ku].
  pose proof (column_of_records rs _ _ _ Hd Ka) as Ca.
  pose proof (column_of_records rs _ _ _ Hd Ku) as Cu.
  destruct (Pd.of_list (map PDict rs)) as [df0|]; [|discriminate].
  cbn [and_then] in *. rewrite Ca. cbn [and_then].
  assert (Sa : is_ok (Pd.map_series author_login (map (Pd.cell "author") rs)) = true).
  { apply map_series_ok. intros x H. apply in_map_iff in H as (y & <- & Hy).
    destruct (Hx y Hy) as [Hy1 _]. unfold author_ok in Hy1. unfold Pd.cell.
    destruct (dict_get "author" y); [exact Hy1|discriminate]. }
  destruct (Pd.map_series author_login _) as [a|]; [|discriminate].
  cbn [and_then]. rewrite column_set_other by reflexivity. rewrite Cu.
  cbn [and_then].
  assert (Hraise : forall i e0,
            Pd.map_series (url_segment i) (map (Pd.cell "url") rs) = Raise e0 ->
            e0 = IndexError).
  { intros i e0 H. apply map_series_raise in H as (x & Hin & Hr).
    apply in_map_iff in Hin as (y & <- & Hy).
    eapply url_segment_str_raise; [|eassumption]. now apply Hx. }
  destruct (Pd.map_series (url_segment 3) _) as [o|e3] eqn:H3; cbn [and_then].
  2:{ intros [= <-]. eapply Hraise; eassumption. }
  rewrite !column_set_other by reflexivity. rewrite Cu. cbn [and_then].
  destruct (Pd.map_series (url_segment 4) _) as [p|e4] eqn:H4; cbn [and_then].
  1: discriminate.
  intros [= <-]. eapply Hraise; eassumption.
Qed.

(** C8. A record whose url, split on [/], has fewer than five pieces
    makes normalization fail: [finalize] raises, and never returns a
    frame.  What it raises there is the [IndexError] of the subscript
    of line 173 or 174, whenever the records have authors that line 172
    gets through and urls that are strings. *)
Theorem short_url_fails st rs d pieces :
  issues_and_or_prs (self st) = map PDict rs ->
  In d rs ->
  url_pieces d = Some pieces ->
  (List.length pieces < 5)%nat ->
  (exists e, fst (finalize st) = Raise e /\ e <> Unmodelled) /\
  (forallb (fun x => author_ok x && url_is_str x) rs = true ->
   fst (finalize st) = Raise IndexError).
Proof.
  intros Hl Hd Hp Hlen. destruct (finalize_normalize st) as (-> & _).
  rewrite Hl. split.
  - destruct (normalize (map PDict rs)) as [df|e] eqn:Hn.
    + destruct (normalize_short_url _ _ _ _ Hd Hp Hlen Hn).
    + exists e. split; [reflexivity|]. eapply normalize_raise; eassumption.
  - intros Hall. rewrite (normalize_index_error _ _ _ Hd Hp Hlen Hall).
    reflexivity.
Qed.

(** With no record kept, [pd.DataFrame([])] has no column, and line 172
    raises [KeyError('author')]. *)
Lemma finalize_without_records st :
  issues_and_or_prs (self st) = [] ->
  fst (finalize st) = Raise (KeyError "author").
Proof.
  intros Hl. destruct (finalize_normalize st) as (-> & _).
  rewrite Hl. reflexivity.
Qed.

(** ** The run *)

Lemma request_pages n_pages n st :
  request n_pages n st
  = match pages n_pages n st with
    | (Ok Returned, st') => (Ok tt, st')
    | (Ok _, st') => finalize st'
    | (Raise e, st') => (Raise e, st')
    end.
Proof.
  unfold request, pages. run. cbn.
  destruct (for_range _ _ _ _) as [[[]|] st']; reflexivity.
Qed.

Lemma pages_begun n_pages n obj :
  pages n_pages n (start obj)
  = for_range (loop_body n) 0 (Z.to_nat n_pages) (begun obj).
Proof. reflexivity. Qed.

Lemma request_posted n_pages n st :
  posted (world (snd (request n_pages n st)))
  = posted (world (snd (pages n_pages n st))).
Proof.
  rewrite request_pages.
  destruct (pages n_pages n st) as [[[]|] st']; cbn [snd]; try reflexivity.
  all: now destruct (finalize_normalize st') as (_ & _ & -> & _).
Qed.

Lemma request_issues n_pages n st :
  issues_and_or_prs (self (snd (request n_pages n st)))
  = issues_and_or_prs (self (snd (pages n_pages n st))).
Proof.
  rewrite request_pages.
  destruct (pages n_pages n st) as [[[]|] st']; cbn [snd]; try reflexivity.
  all: now destruct (finalize_normalize st') as (_ & _ & _ & _ & ->).
Qed.

(** What the loop of a run made of each document it posted. *)
Lemma pages_inv n_pages n obj :
  let out := pages n_pages n (start obj) in
  (List.length (posted (world (snd out))) <= Z.to_nat n_pages)%nat /\
  (fst out = Ok Exhausted ->
   List.length (posted (world (snd out))) = Z.to_nat n_pages) /\
  forall k doc, nth_error (posted (world (snd out))) k = Some doc ->
    loop_settles (headers obj) k doc (fst out) (snd out) /\
    (S k < List.length (posted (world (snd out))) ->
     continues (headers obj) k doc)%nat.
Proof.
  cbv zeta. rewrite pages_begun.
  destruct (for_range (loop_body n) 0 (Z.to_nat n_pages) (begun obj))
    as [res st'] eqn:Hf.
  destruct (for_range_inv _ _ _ _ _ _ Hf) as (_ & docs & Hp & Hlen & Hex & Hall).
  change (posted (world (begun obj))) with (@nil string) in Hp, Hall.
  change (headers (self (begun obj))) with (headers obj) in Hall.
  cbn [List.app List.length Nat.add] in Hp, Hall. cbn [fst snd]. rewrite Hp.
  split; [exact Hlen|]. split; [exact Hex|]. exact Hall.
Qed.


Lemma messages_differ code doc errors doc' :
  status_message code doc <> errors_message errors doc'.
Proof. unfold status_message, errors_message. cbn. discriminate. Qed.

(** C2. The fetch of a page fails when the status of the answer is not
    200, and fails when the status is 200 and the decoded body has an
    [errors] entry; either failure ends the run with its own exception,
    which tells the status or the errors and the document, and the two
    are never the same value. *)
Theorem fetch_failures_end_the_run obj n_pages n k doc r :
  let run := request n_pages n (start obj) in
  nth_error (posted (world (snd run))) k = Some doc ->
  post k doc (headers obj) = Ok r ->
  (status_code r <> 200 ->
   fst run = Raise (Exception (status_message (status_code r) doc))) /\
  (forall d errors,
     status_code r = 200 -> body r = Some (PDict d) ->
     dict_get "errors" d = Some errors ->
     fst run = Raise (Exception (errors_message errors doc))) /\
  (forall errors doc',
     status_message (status_code r) doc <> errors_message errors doc').
Proof.
  cbv zeta. rewrite request_posted. intros Hk Hr.
  destruct (pages_inv n_pages n obj) as (_ & _ & Hall). cbv zeta in Hall.
  destruct (Hall _ _ Hk) as [(_ & S2 & S3 & _) _].
  rewrite request_pages.
  destruct (pages n_pages n (start obj)) as [res st']. cbn [fst snd] in *.
  split; [|split].
  - intros Hn. rewrite (S2 _ Hr Hn). reflexivity.
  - intros d errors H200 Hb Hd. rewrite (S3 _ _ _ Hr H200 Hb Hd). reflexivity.
  - intros errors doc'. apply messages_differ.
Qed.

(** C1, as the code has it.  When the loop runs through all of its
    [n_pages] passes without meeting a page whose [hasNextPage] is
    [False], nothing is raised for it: [n_pages] documents were posted,
    and the run goes on to lines 169-174 as it does after a [break];
    when these get through the records kept, [request] returns with
    the frame of all of them in [self.data]. *)
Theorem exhausted_pages_are_the_table obj n_pages n st :
  pages n_pages n (start obj) = (Ok Exhausted, st) ->
  let run := request n_pages n (start obj) in
  List.length (posted (world st)) = Z.to_nat n_pages /\
  run = finalize st /\
  (forall df, normalize (issues_and_or_prs (self st)) = Ok df ->
     fst run = Ok tt /\ data (self (snd run)) = Some df).
Proof.
  intros Hp. cbv zeta. rewrite request_pages, Hp.
  destruct (pages_inv n_pages n obj) as (_ & Hex & _). cbv zeta in Hex.
  rewrite Hp in Hex. cbn [fst snd] in Hex.
  split; [now apply Hex|]. split; [reflexivity|].
  intros df Hn. destruct (finalize_normalize st) as (-> & Hd & _).
  rewrite Hn. split; [reflexivity|]. now apply Hd.
Qed.

(** ** The cursor from one page to the next *)

Lemma one_page_posted n ii doc st :
  posted (world (snd (one_page n ii doc st))) = List.app (posted (world st)) [doc].
Proof.
  destruct (one_page n ii doc st) as [res st1] eqn:H. cbn [snd].
  remember doc as d0 eqn:Ed in H.
  assert (Hd : posted (world st1) = List.app (posted (world st)) [d0]).
  { clear Ed. crunch_body H; reflexivity. }
  now subst d0.
Qed.

Lemma loop_body_one_page n ii st res st1 doc :
  loop_body n ii st = (res, st1) ->
  posted (world st1) = List.app (posted (world st)) [doc] ->
  one_page n ii doc st = (res, st1).
Proof.
  unfold loop_body. unfold bind at 1.
  destruct (github_search_query n ii st) as [[args|e] st0] eqn:Hq;
    pose proof (github_search_query_state _ _ _ _ _ Hq) as ->.
  2:{ intros [= <- <-] H. now apply app_one_neq in H. }
  intros H Hp. pose proof (one_page_posted n ii (ii_gql_query args) st) as Hd.
  rewrite H in Hd. cbn [snd] in Hd. rewrite Hp in Hd.
  apply app_one_inv in Hd. now subst doc.
Qed.

Lemma loop_body_after_cursor n ii st pi cursor :
  pageInfo (vars st) = Some pi ->
  getitem pi "endCursor" = Ok cursor ->
  loop_body n (S ii) st
  = one_page n (S ii)
      (ii_gql_query (List.app (search_args n (query (self st))) [after_arg cursor])) st.
Proof.
  intros Hpi Hc. unfold loop_body, github_search_query. run. cbn [Nat.eqb].
  rewrite Hpi, Hc. reflexivity.
Qed.

Lemma for_range_posted n count ii st res st' :
  for_range (loop_body n) ii count st = (res, st') ->
  exists docs, posted (world st') = List.app (posted (world st)) docs.
Proof.
  intros H. destruct (for_range_inv _ _ _ _ _ _ H) as (_ & docs & Hp & _). eauto.
Qed.

Lemma nth_error_app_at {A} (l l' : list A) x :
  nth_error (List.app (List.app l [x]) l') (List.length l) = Some x.
Proof.
  rewrite <- app_assoc. rewrite nth_error_app2 by lia.
  rewrite Nat.sub_diag. reflexivity.
Qed.

(** The document of a pass carries the [endCursor] of the page before. *)
Lemma for_range_cursor n count : forall ii st res st' k doc r s pi cursor v,
  for_range (loop_body n) ii count st = (res, st') ->
  ii = List.length (posted (world st)) ->
  (ii <> O -> prog (vars st) <> None) ->
  (ii <= k)%nat -> (S k < ii + count)%nat ->
  nth_error (posted (world st')) k = Some doc ->
  post k doc (headers (self st)) = Ok r ->
  accepted r = true ->
  search_of r = Ok s ->
  (k = O -> counted n s = true) ->
  is_ok (nodes_of s) = true ->
  getitem s "pageInfo" = Ok pi ->
  getitem pi "endCursor" = Ok cursor ->
  getitem pi "hasNextPage" = Ok v ->
  is_False v = false ->
  nth_error (posted (world st')) (S k)
  = Some (ii_gql_query (List.app (search_args n (query (self st))) [after_arg cursor])).
Proof.
  induction count as [|count IH];
    intros ii st res st' k doc r s pi cursor v Hf Hii Hprog Hle Hlt Hk Hr Ha Hs Hc Hn
           Hpi Hcur Hh Hv; [lia|].
  cbn [for_range] in Hf. unfold bind at 1 in Hf.
  destruct (loop_body n ii st) as [f st1] eqn:Hb.
  destruct (loop_body_inv _ _ _ _ _ Hb) as [Hst Hcases].
  assert (Hext : exists docs, posted (world st') = List.app (posted (world st1)) docs).
  { destruct f as [[| |]|e].
    - eapply for_range_posted; eassumption.
    - injection Hf as <- <-. exists []. now rewrite app_nil_r.
    - injection Hf as <- <-. exists []. now rewrite app_nil_r.
    - injection Hf as <- <-. exists []. now rewrite app_nil_r. }
  destruct Hext as [docs Hext].
  destruct Hcases as [[Hp [e ->]]|(doc0 & Hp & _ & _)].
  { injection Hf as <- <-. rewrite Hp in Hk.
    assert (nth_error (posted (world st)) k = None) by (apply nth_error_None; lia).
    congruence. }
  destruct (Nat.eq_dec k ii) as [->|Hne].
  - (* the page of this pass *)
    assert (doc0 = doc) as ->.
    { rewrite Hext, Hp, Hii, nth_error_app_at in Hk. congruence. }
    pose proof (loop_body_one_page _ _ _ _ _ _ Hb Hp) as Hone.
    destruct (nodes_of s) as [nodes|] eqn:Hnodes; [|discriminate].
    rewrite Hii in Hr.
    destruct (one_page_goes_on n (List.length (posted (world st))) doc st r s pi v nodes
                Hr Ha Hs) as (st1' & Hgo & Hpi1 & Hprog1 & _ & Hst1 & _);
      try assumption; try (rewrite <- Hii; assumption).
    rewrite <- Hii in Hgo. rewrite Hone in Hgo. injection Hgo as -> <-.
    destruct count as [|count]; [lia|].
    cbn [for_range] in Hf. unfold bind at 1 in Hf.
    rewrite (loop_body_after_cursor _ _ _ _ _ Hpi1 Hcur) in Hf.
    destruct Hst as (Hq & _). rewrite Hq in Hf.
    set (doc' := ii_gql_query
                   (List.app (search_args n (query (self st))) [after_arg cursor])) in *.
    pose proof (one_page_posted n (S ii) doc' st1) as Hp2.
    destruct (one_page n (S ii) doc' st1) as [f2 st2] eqn:H2. cbn [snd] in Hp2.
    assert (Hext2 : exists docs2,
               posted (world st') = List.app (posted (world st2)) docs2).
    { destruct f2 as [[| |]|e].
      - eapply for_range_posted; eassumption.
      - injection Hf as <- <-. exists []. now rewrite app_nil_r.
      - injection Hf as <- <-. exists []. now rewrite app_nil_r.
      - injection Hf as <- <-. exists []. now rewrite app_nil_r. }
    destruct Hext2 as [docs2 Hext2]. rewrite Hext2, Hp2.
    replace (S ii) with (List.length (posted (world st1)))
      by (rewrite Hp, length_app; cbn; lia).
    apply nth_error_app_at.
  - (* a later page *)
    destruct f as [[| |]|e];
      try (injection Hf as <- <-; rewrite Hp in Hk;
           assert (nth_error (List.app (posted (world st)) [doc0]) k = None)
             by (apply nth_error_None; rewrite length_app; cbn; lia);
           congruence).
    destruct Hst as (Hq & Hh' & _). rewrite <- Hq, <- Hh' in *.
    eapply (IH (S ii) st1); try eassumption.
    + rewrite Hp, length_app. cbn. lia.
    + intros _. eapply loop_body_next_prog; eassumption.
    + lia.
    + lia.
Qed.

(** C10. A page whose [hasNextPage] is true and whose [endCursor] is
    null does not stop the run: while the range has an index left, the
    next document is posted, and its cursor argument is the text
    [after: "None"]. *)
Theorem null_cursor_is_posted_as_None obj n_pages n k doc r s pi :
  let run := request n_pages n (start obj) in
  nth_error (posted (world (snd run))) k = Some doc ->
  post k doc (headers obj) = Ok r ->
  accepted r = true ->
  search_of r = Ok s ->
  (k = O -> counted n s = true) ->
  is_ok (nodes_of s) = true ->
  getitem s "pageInfo" = Ok pi ->
  getitem pi "hasNextPage" = Ok (PBool true) ->
  getitem pi "endCursor" = Ok PNone ->
  Z.of_nat (S k) < n_pages ->
  nth_error (posted (world (snd run))) (S k)
  = Some (ii_gql_query
            (List.app (search_args n (query obj))
                      ["after: " ++ dquote ++ "None" ++ dquote])).
Proof.
  cbv zeta. rewrite request_posted, pages_begun.
  destruct (for_range (loop_body n) 0 (Z.to_nat n_pages) (begun obj))
    as [res st'] eqn:Hf.
  cbn [snd]. intros Hk Hr Ha Hs Hc Hn Hpi Hh Hcur Hlt.
  change (["after: " ++ dquote ++ "None" ++ dquote]) with [after_arg PNone].
  change (query obj) with (query (self (begun obj))).
  eapply (for_range_cursor n _ O (begun obj)); try eassumption; try reflexivity.
  - intros H. now destruct H.
  - lia.
  - lia.
Qed.

(** C3. When the first page reports a count of zero, the run ends
    there and returns: [self.data] is the empty frame, one document was
    posted and no second one, and nothing is raised. *)
Theorem no_entries_is_an_empty_table obj n_pages n r s issueCount :
  0 < n_pages ->
  post 0 (ii_gql_query (search_args n (query obj))) (headers obj) = Ok r ->
  accepted r = true ->
  search_of r = Ok s ->
  getitem s "issueCount" = Ok issueCount ->
  eq_int issueCount 0 = true ->
  let run := request n_pages n (start obj) in
  fst run = Ok tt /\
  data (self (snd run)) = Some Pd.empty /\
  posted (world (snd run)) = [ii_gql_query (search_args n (query obj))] /\
  printed (world (snd run)) = ["Found no entries for query."].
Proof.
  intros Hpos Hr Ha Hs Hc Hz. cbv zeta.
  destruct (one_page_no_entries n (ii_gql_query (search_args n (query obj)))
              (begun obj) r s issueCount Hr Ha Hs Hc Hz)
    as (st1 & Hone & Hd & Hp & Hpr).
  assert (Hrun : request n_pages n (start obj) = (Ok tt, st1)).
  { rewrite request_pages, pages_begun.
    destruct (Z.to_nat n_pages) as [|count] eqn:En; [lia|].
    cbn [for_range]. unfold bind.
    change (loop_body n 0 (begun obj))
      with (one_page n 0 (ii_gql_query (search_args n (query obj))) (begun obj)).
    rewrite Hone. reflexivity. }
  rewrite Hrun. cbn [fst snd]. auto.
Qed.

(** ** More on the run: what the loop keeps, pass after pass *)

Lemma loop_body_cases n ii st f st1 :
  loop_body n ii st = (f, st1) ->
  (st1 = st /\ exists e, f = Raise e) \/
  (exists doc, one_page n ii doc st = (f, st1) /\
               posted (world st1) = List.app (posted (world st)) [doc]).
Proof.
  unfold loop_body. unfold bind at 1.
  destruct (github_search_query n ii st) as [[args|e] st0] eqn:Hq;
    pose proof (github_search_query_state _ _ _ _ _ Hq) as ->.
  - intros H. right. exists (ii_gql_query args). split; [exact H|].
    pose proof (one_page_posted n ii (ii_gql_query args) st) as Hp.
    now rewrite H in Hp.
  - intros [= <- <-]. left. eauto.
Qed.

Ltac use_equations :=
  repeat match goal with
         | H : ?x = Ok _ |- context [?x] => rewrite H
         | H : ?x = Raise _ |- context [?x] => rewrite H
         end.

Lemma one_page_keeps n ii doc st f st1 :
  one_page n ii doc st = (f, st1) ->
  (f <> Ok Return -> data (self st1) = data (self st)) /\
  (f = Ok Next \/ f = Ok Break ->
   issues_and_or_prs (self st1)
   = List.app (issues_and_or_prs (self st))
       (page_nodes (headers (self st)) (List.length (posted (world st))) doc) /\
   last_query (self st1) = Some doc) /\
  (f = Ok Return -> issues_and_or_prs (self st1) = issues_and_or_prs (self st)).
Proof.
  intros H. remember doc as d eqn:Ed in H.
  assert (Hgoal :
    (f <> Ok Return -> data (self st1) = data (self st)) /\
    (f = Ok Next \/ f = Ok Break ->
     issues_and_or_prs (self st1)
     = List.app (issues_and_or_prs (self st))
         (page_nodes (headers (self st)) (List.length (posted (world st))) d) /\
     last_query (self st1) = Some d) /\
    (f = Ok Return -> issues_and_or_prs (self st1) = issues_and_or_prs (self st)));
    [|now subst d].
  clear Ed. crunch_body H.
  all: split; [intros Hf; try reflexivity; congruence|].
  all: split; [|intros Hf; try reflexivity; congruence].
  all: intros [Hf|Hf]; try discriminate Hf.
  all: unfold page_nodes; use_equations; cbn [and_then]; use_equations;
       cbn [and_then]; use_equations; split; reflexivity.
Qed.

Lemma loop_body_keeps n ii st f st1 :
  loop_body n ii st = (f, st1) ->
  static st st1 /\
  (f <> Ok Return -> data (self st1) = data (self st)) /\
  (f = Ok Next \/ f = Ok Break ->
   exists doc,
     posted (world st1) = List.app (posted (world st)) [doc] /\
     issues_and_or_prs (self st1)
     = List.app (issues_and_or_prs (self st))
         (page_nodes (headers (self st)) (List.length (posted (world st))) doc) /\
     last_query (self st1) = Some doc).
Proof.
  intros H. destruct (loop_body_inv _ _ _ _ _ H) as [Hst _]. split; [exact Hst|].
  destruct (loop_body_cases _ _ _ _ _ H) as [[-> [e ->]]|(doc & Hone & Hp)].
  - split; [reflexivity|]. intros [Hf|Hf]; discriminate Hf.
  - destruct (one_page_keeps _ _ _ _ _ _ Hone) as (Hd & Hi & _).
    split; [exact Hd|]. intros Hf. exists doc. split; [exact Hp|]. now apply Hi.
Qed.

Lemma last_cons {A} (x : A) l : forall d, List.last (x :: l) d = List.last l x.
Proof.
  revert x. induction l as [|y l IH]; intros x d; [reflexivity|].
  change (List.last (x :: y :: l) d) with (List.last (y :: l) d).
  rewrite (IH y d). symmetry. apply IH.
Qed.

(** What the loop leaves in [self] when it is left. *)
Lemma for_range_keeps n count : forall ii st res st',
  for_range (loop_body n) ii count st = (res, st') ->
  (res <> Ok Returned -> data (self st') = data (self st)) /\
  (forall e, res = Ok e -> e <> Returned ->
     exists docs,
       posted (world st') = List.app (posted (world st)) docs /\
       issues_and_or_prs (self st')
       = List.app (issues_and_or_prs (self st))
           (nodes_from (headers (self st)) (List.length (posted (world st))) docs) /\
       last_query (self st') = List.last (map Some docs) (last_query (self st))).
Proof.
  induction count as [|count IH]; intros ii st res st'; cbn [for_range].
  - intros [= <- <-]. split; [reflexivity|]. intros e _ _. exists [].
    cbn [nodes_from map List.last]. rewrite !app_nil_r. repeat split.
  - unfold bind at 1. destruct (loop_body n ii st) as [f st1] eqn:Hb.
    destruct (loop_body_keeps _ _ _ _ _ Hb) as (Hst & Hd & Hn).
    destruct f as [[| |]|e0].
    + intros Hrec. destruct (IH _ _ _ _ Hrec) as [Hd' Hn'].
      destruct (Hn (or_introl eq_refl)) as (doc & Hp & Hi & Hq).
      split.
      * intros Hr. rewrite (Hd' Hr). apply Hd. discriminate.
      * intros e He Hne. destruct (Hn' e He Hne) as (docs & Hp' & Hi' & Hq').
        exists (doc :: docs). destruct Hst as (_ & Hh & _).
        rewrite Hp', Hp, <- app_assoc. split; [reflexivity|].
        rewrite Hi', Hi, Hh, Hp, length_app, <- app_assoc. cbn [List.length nodes_from].
        replace (List.length (posted (world st)) + 1)%nat
          with (S (List.length (posted (world st)))) by lia.
        split; [reflexivity|].
        rewrite Hq', Hq. cbn [map]. symmetry. apply last_cons.
    + intros [= <- <-]. destruct (Hn (or_intror eq_refl)) as (doc & Hp & Hi & Hq).
      split; [intros _; apply Hd; discriminate|].
      intros e [= <-] _. exists [doc]. cbn [nodes_from map List.last].
      rewrite app_nil_r.
      split; [exact Hp|]. split; [exact Hi|exact Hq].
    + intros [= <- <-]. split; [intros H; now destruct H|].
      intros e [= <-] H. now destruct H.
    + intros [= <- <-]. split; [intros _; apply Hd; discriminate|].
      intros e He. discriminate He.
Qed.

Lemma finalize_self st :
  let st' := snd (finalize st) in
  static st st' /\
  last_query (self st') = last_query (self st) /\
  last_request (self st') = last_request (self st).
Proof.
  cbv zeta. unfold finalize, derive. run. cbn.
  repeat match goal with
         | |- context [match ?x with _ => _ end] =>
             lazymatch x with
             | context [match _ with _ => _ end] => fail
             | _ => destruct x
             end; cbn
         end; repeat split.
Qed.

Lemma pages_static n_pages n obj :
  static (start obj) (snd (pages n_pages n (start obj))).
Proof.
  rewrite pages_begun.
  destruct (for_range (loop_body n) 0 (Z.to_nat n_pages) (begun obj))
    as [res st'] eqn:Hf.
  destruct (for_range_inv _ _ _ _ _ _ Hf) as (Hst & _). exact Hst.
Qed.

Lemma request_snd n_pages n st :
  snd (request n_pages n st) = snd (pages n_pages n st) \/
  snd (request n_pages n st) = snd (finalize (snd (pages n_pages n st))).
Proof.
  rewrite request_pages.
  destruct (pages n_pages n st) as [[[]|] st']; cbn [snd]; auto.
Qed.

(** X1. A run leaves the configuration of the object alone: the search
    string, the headers and the progress switch are after the run, however
    it ends, what they were before. *)
Theorem request_keeps_the_configuration obj n_pages n :
  let st' := snd (request n_pages n (start obj)) in
  query (self st') = query obj /\
  headers (self st') = headers obj /\
  display_progress (self st') = display_progress obj.
Proof.
  cbv zeta. pose proof (pages_static n_pages n obj) as Hp.
  destruct (request_snd n_pages n (start obj)) as [-> | ->]; [exact Hp|].
  destruct (finalize_self (snd (pages n_pages n (start obj)))) as (Hf & _).
  exact (static_trans _ _ _ Hp Hf).
Qed.

(** X4. A run posts at most [n_pages] documents, and none at all when
    [n_pages] is zero or negative. *)
Theorem at_most_n_pages_posts obj n_pages n :
  let run := request n_pages n (start obj) in
  (Z.of_nat (List.length (posted (world (snd run)))) <= Z.max n_pages 0) /\
  (n_pages <= 0 -> posted (world (snd run)) = []).
Proof.
  cbv zeta. rewrite request_posted.
  destruct (pages_inv n_pages n obj) as (Hlen & _). cbv zeta in Hlen.
  split; [lia|]. intros Hn.
  destruct (posted (world (snd (pages n_pages n (start obj))))); [reflexivity|].
  cbn [List.length] in Hlen. lia.
Qed.

(** X9. Nothing is posted after a post that failed: when the connection
    raised, or the answer did not get through the checks of lines
    131-134, that post is the last of the run (no retry, no next page). *)
Theorem no_post_after_a_failed_fetch obj n_pages n k doc :
  let run := request n_pages n (start obj) in
  nth_error (posted (world (snd run))) k = Some doc ->
  (forall r, post k doc (headers obj) = Ok r -> accepted r = false) ->
  List.length (posted (world (snd run))) = S k.
Proof.
  cbv zeta. rewrite request_posted. intros Hk Hr.
  destruct (pages_inv n_pages n obj) as (_ & _ & Hall). cbv zeta in Hall.
  destruct (Hall _ _ Hk) as [_ Hc].
  assert (k < List.length (posted (world (snd (pages n_pages n (start obj))))))%nat
    by (apply nth_error_Some; congruence).
  destruct (Nat.eq_dec (List.length (posted (world (snd (pages n_pages n (start obj))))))
                       (S k)) as [E|E]; [exact E|].
  exfalso. destruct Hc as (r & s & v & Hp & Ha & _); [lia|].
  rewrite (Hr _ Hp) in Ha. discriminate.
Qed.

Lemma pages_keeps n_pages n obj :
  let out := pages n_pages n (start obj) in
  (fst out <> Ok Returned -> data (self (snd out)) = data obj) /\
  (forall e, fst out = Ok e -> e <> Returned ->
     issues_and_or_prs (self (snd out))
     = nodes_from (headers obj) 0 (posted (world (snd out))) /\
     last_query (self (snd out))
     = List.last (map Some (posted (world (snd out)))) (last_query obj)).
Proof.
  cbv zeta. rewrite pages_begun.
  destruct (for_range (loop_body n) 0 (Z.to_nat n_pages) (begun obj))
    as [res st'] eqn:Hf.
  destruct (for_range_keeps _ _ _ _ _ _ Hf) as [Hd Hn]. cbn [fst snd].
  split; [exact Hd|]. intros e He Hne.
  destruct (Hn e He Hne) as (docs & Hp & Hi & Hq).
  change (posted (world (begun obj))) with (@nil string) in Hp, Hi.
  change (issues_and_or_prs (self (begun obj))) with (@nil pyval) in Hi.
  change (headers (self (begun obj))) with (headers obj) in Hi.
  change (last_query (self (begun obj))) with (last_query obj) in Hq.
  cbn [List.app List.length] in Hp, Hi. rewrite Hp. auto.
Qed.

(** X5. The records kept are the nodes of the pages in the order the
    pages came, and within a page in the order of its nodes; what
    [self.issues_and_or_prs] held before the call is gone.  The outcome
    of the run is the normalization of that list. *)
Theorem records_in_arrival_order obj n_pages n e :
  fst (pages n_pages n (start obj)) = Ok e -> e <> Returned ->
  let run := request n_pages n (start obj) in
  let records := nodes_from (headers obj) 0 (posted (world (snd run))) in
  issues_and_or_prs (self (snd run)) = records /\
  fst run = and_then (normalize records) (fun _ => Ok tt) /\
  (forall df, normalize records = Ok df -> data (self (snd run)) = Some df).
Proof.
  intros He Hne. cbv zeta. rewrite request_posted, request_issues.
  destruct (pages_keeps n_pages n obj) as [_ Hk]. cbv zeta in Hk.
  destruct (Hk e He Hne) as [Hi _]. split; [exact Hi|].
  rewrite request_pages. rewrite <- Hi.
  destruct (pages n_pages n (start obj)) as [res st']. cbn [fst snd] in *.
  subst res.
  destruct (finalize_normalize st') as (Hf & Hd & _).
  destruct e; try (now destruct Hne); auto.
Qed.

(** X8. When the loop raises (a fetch that fails, a page that lacks an
    entry), [self.data] is not assigned: after the exception it is what
    it was before the call, the frame of an earlier run if there was
    one. *)
Theorem failed_run_leaves_data_alone obj n_pages n e :
  fst (pages n_pages n (start obj)) = Raise e ->
  let run := request n_pages n (start obj) in
  fst run = Raise e /\ data (self (snd run)) = data obj.
Proof.
  intros He. cbv zeta.
  destruct (pages_keeps n_pages n obj) as [Hd _]. cbv zeta in Hd.
  rewrite request_pages.
  destruct (pages n_pages n (start obj)) as [res st']. cbn [fst snd] in *.
  subst res. split; [reflexivity|]. apply Hd. discriminate.
Qed.

(** X14. After a run whose loop was left by the [break] or by running
    out of indices, [self.last_query] is the last document posted (and
    is left as it was when nothing was posted). *)
Theorem last_query_is_the_last_document obj n_pages n e :
  fst (pages n_pages n (start obj)) = Ok e -> e <> Returned ->
  let run := request n_pages n (start obj) in
  last_query (self (snd run))
  = List.last (map Some (posted (world (snd run)))) (last_query obj).
Proof.
  intros He Hne. cbv zeta. rewrite request_posted.
  destruct (pages_keeps n_pages n obj) as [_ Hk]. cbv zeta in Hk.
  destruct (Hk e He Hne) as [_ Hq]. rewrite <- Hq.
  destruct (request_snd n_pages n (start obj)) as [-> | ->]; [reflexivity|].
  now destruct (finalize_self (snd (pages n_pages n (start obj)))) as (_ & -> & _).
Qed.

(** ** More on the run: the pass behind each document *)

(** Behind the document at place [j] counted from where the loop
    starts, there is the pass that posted it; the loop went on after it,
    or was left with what it made of the answer. *)
Lemma for_range_step_at n count : forall ii st res st' j doc,
  for_range (loop_body n) ii count st = (res, st') ->
  (ii <> O -> prog (vars st) <> None) ->
  nth_error (posted (world st')) (List.length (posted (world st)) + j) = Some doc ->
  exists stj f stj',
    static st stj /\
    List.length (posted (world stj)) = (List.length (posted (world st)) + j)%nat /\
    ((ii + j)%nat <> O -> prog (vars stj) <> None) /\
    (j < count)%nat /\
    one_page n (ii + j) doc stj = (f, stj') /\
    ((f = Ok Next /\
      for_range (loop_body n) (S (ii + j)) (count - S j) stj' = (res, st')) \/
     (f <> Ok Next /\ st' = stj' /\ res = exit_of f)).
Proof.
  induction count as [|count IH]; intros ii st res st' j doc Hf Hprog Hk.
  - cbn [for_range] in Hf. injection Hf as _ <-.
    assert (nth_error (posted (world st)) (List.length (posted (world st)) + j) = None)
      by (apply nth_error_None; lia).
    congruence.
  - cbn [for_range] in Hf. unfold bind at 1 in Hf.
    destruct (loop_body n ii st) as [f st1] eqn:Hb.
    destruct (loop_body_inv _ _ _ _ _ Hb) as [Hst _].
    destruct (loop_body_cases _ _ _ _ _ Hb) as [[-> [e ->]]|(doc0 & Hone & Hp)].
    { injection Hf as _ <-.
      assert (nth_error (posted (world st)) (List.length (posted (world st)) + j) = None)
        by (apply nth_error_None; lia).
      congruence. }
    destruct j as [|j].
    + rewrite Nat.add_0_r in *.
      assert (doc0 = doc) as ->.
      { destruct f as [[| |]|e].
        - destruct (for_range_posted _ _ _ _ _ _ Hf) as [docs Hd].
          rewrite Hd, Hp, nth_error_app_at in Hk. congruence.
        - injection Hf as _ <-. rewrite Hp in Hk.
          rewrite <- (app_nil_r (List.app _ [doc0])), nth_error_app_at in Hk.
          congruence.
        - injection Hf as _ <-. rewrite Hp in Hk.
          rewrite <- (app_nil_r (List.app _ [doc0])), nth_error_app_at in Hk.
          congruence.
        - injection Hf as _ <-. rewrite Hp in Hk.
          rewrite <- (app_nil_r (List.app _ [doc0])), nth_error_app_at in Hk.
          congruence. }
      exists st, f, st1. rewrite ?Nat.add_0_r.
      split; [apply static_refl|]. split; [reflexivity|].
      split; [exact Hprog|]. split; [lia|]. split; [exact Hone|].
      replace (S count - 1)%nat with count by lia.
      destruct f as [[| |]|e].
      * left. auto.
      * right. injection Hf as <- <-. repeat split. discriminate.
      * right. injection Hf as <- <-. repeat split. discriminate.
      * right. injection Hf as <- <-. repeat split. discriminate.
    + assert (f = Ok Next) as ->.
      { destruct f as [[| |]|e]; [reflexivity|..];
          injection Hf as _ <-; rewrite Hp in Hk;
          assert (nth_error (List.app (posted (world st)) [doc0])
                    (List.length (posted (world st)) + S j) = None)
            by (apply nth_error_None; rewrite length_app; cbn; lia);
          congruence. }
      assert (Hlen1 : List.length (posted (world st1))
                      = S (List.length (posted (world st))))
        by (rewrite Hp, length_app; cbn; lia).
      destruct (IH (S ii) st1 res st' j doc Hf) as
        (stj & f & stj' & Hs & Hl & Hpr & Hj & Ho & Hc).
      * intros _. eapply loop_body_next_prog; eassumption.
      * rewrite Hlen1. replace (S (List.length (posted (world st))) + j)%nat
          with (List.length (posted (world st)) + S j)%nat by lia. exact Hk.
      * exists stj, f, stj'.
        replace (ii + S j)%nat with (S ii + j)%nat by lia.
        split; [eapply static_trans; eassumption|].
        split; [lia|]. split; [exact Hpr|]. split; [lia|]. split; [exact Ho|].
        exact Hc.
Qed.

(** The same from the start of a run. *)
Lemma pages_step_at n_pages n obj k doc :
  nth_error (posted (world (snd (pages n_pages n (start obj))))) k = Some doc ->
  exists stk f stk',
    static (start obj) stk /\
    List.length (posted (world stk)) = k /\
    (k <> O -> prog (vars stk) <> None) /\
    (Z.of_nat k < n_pages) /\
    one_page n k doc stk = (f, stk') /\
    ((f = Ok Next /\
      for_range (loop_body n) (S k) (Z.to_nat n_pages - S k) stk'
      = pages n_pages n (start obj)) \/
     (f <> Ok Next /\ pages n_pages n (start obj) = (exit_of f, stk'))).
Proof.
  rewrite pages_begun.
  destruct (for_range (loop_body n) 0 (Z.to_nat n_pages) (begun obj))
    as [res st'] eqn:Hf.
  cbn [snd]. intros Hk.
  destruct (for_range_step_at n _ O (begun obj) res st' k doc Hf) as
    (stk & f & stk' & Hs & Hl & Hpr & Hj & Ho & Hc).
  - intros H. now destruct H.
  - exact Hk.
  - exists stk, f, stk'. cbn [Nat.add] in *.
    split; [exact Hs|]. split; [exact Hl|]. split; [exact Hpr|].
    split; [lia|]. split; [exact Ho|].
    destruct Hc as [[-> Hr]|(Hn & -> & ->)]; [left|right]; auto.
Qed.

Lemma one_page_no_search n ii doc st r e :
  post (List.length (posted (world st))) doc (headers (self st)) = Ok r ->
  accepted r = true ->
  search_of r = Raise e ->
  one_page n ii doc st
  = (Raise e, with_self (set_last_request r) (record_post doc st)).
Proof.
  intros Hr Ha Hs. unfold one_page.
  rewrite (bind_ok _ _ _ _ _ (fetch_accepted _ _ _ Hr Ha)).
  run. rewrite Hs. reflexivity.
Qed.

Lemma one_page_count_raises n doc st r s issueCount e :
  post (List.length (posted (world st))) doc (headers (self st)) = Ok r ->
  accepted r = true ->
  search_of r = Ok s ->
  getitem s "issueCount" = Ok issueCount ->
  eq_int issueCount 0 = false ->
  expected_pages issueCount n = Raise e ->
  one_page n 0 doc st
  = (Raise e, with_self (set_last_request r) (record_post doc st)).
Proof.
  intros Hr Ha Hs Hc Hz He. unfold one_page.
  rewrite (bind_ok _ _ _ _ _ (fetch_accepted _ _ _ Hr Ha)).
  unfold first_page. run. rewrite Hs. cbn [Nat.eqb]. rewrite Hc, Hz, He.
  reflexivity.
Qed.

Lemma loop_body_cursor_raises n ii st pi e :
  pageInfo (vars st) = Some pi ->
  getitem pi "endCursor" = Raise e ->
  loop_body n (S ii) st = (Raise e, st).
Proof.
  intros Hpi Hc. unfold loop_body, github_search_query. run. cbn [Nat.eqb].
  rewrite Hpi, Hc. reflexivity.
Qed.

Lemma request_raises n_pages n st e st' :
  pages n_pages n st = (Raise e, st') -> request n_pages n st = (Raise e, st').
Proof. intros H. rewrite request_pages, H. reflexivity. Qed.

(** X12. An answer that gets through the checks of lines 131-134 but has
    no [data.search] to read ends the run with the exception of the
    subscript of line 138 (a [KeyError] for the entry that is missing);
    nothing is posted after it. *)
Theorem answer_without_search_raises obj n_pages n k doc r e :
  let run := request n_pages n (start obj) in
  nth_error (posted (world (snd run))) k = Some doc ->
  post k doc (headers obj) = Ok r ->
  accepted r = true ->
  search_of r = Raise e ->
  fst run = Raise e /\ List.length (posted (world (snd run))) = S k.
Proof.
  cbv zeta. rewrite request_posted. intros Hk Hr Ha Hs.
  destruct (pages_step_at _ _ _ _ _ Hk)
    as (stk & f & stk' & (_ & Hh & _) & Hl & _ & _ & Ho & Hc).
  cbn [self start] in Hh.
  rewrite <- Hl, <- Hh in Hr.
  rewrite (one_page_no_search _ _ _ _ _ _ Hr Ha Hs) in Ho.
  injection Ho as <- <-.
  destruct Hc as [[Hf _]|(_ & Hp)]; [discriminate Hf|].
  cbn [exit_of] in Hp. rewrite (request_raises _ _ _ _ _ Hp), Hp. cbn [fst snd].
  split; [reflexivity|]. cbn. rewrite length_app. cbn. lia.
Qed.

(** X11. When the first page counts entries and line 145 cannot compute
    the number of pages (a page size of 0 is a [ZeroDivisionError], a
    count that is not a number a [TypeError]), the run raises that after
    its one post: nothing was printed, no record was kept. *)
Theorem page_count_failure_raises obj n_pages n r s issueCount e :
  0 < n_pages ->
  post 0 (ii_gql_query (search_args n (query obj))) (headers obj) = Ok r ->
  accepted r = true ->
  search_of r = Ok s ->
  getitem s "issueCount" = Ok issueCount ->
  eq_int issueCount 0 = false ->
  expected_pages issueCount n = Raise e ->
  let run := request n_pages n (start obj) in
  fst run = Raise e /\
  posted (world (snd run)) = [ii_gql_query (search_args n (query obj))] /\
  printed (world (snd run)) = [] /\
  issues_and_or_prs (self (snd run)) = [].
Proof.
  intros Hpos Hr Ha Hs Hc Hz He. cbv zeta.
  pose proof (one_page_count_raises n (ii_gql_query (search_args n (query obj)))
                (begun obj) r s issueCount e Hr Ha Hs Hc Hz He) as Hone.
  assert (Hrun : request n_pages n (start obj)
                 = (Raise e, with_self (set_last_request r)
                               (record_post (ii_gql_query (search_args n (query obj)))
                                  (begun obj)))).
  { apply request_raises. rewrite pages_begun.
    destruct (Z.to_nat n_pages) as [|count] eqn:En; [lia|].
    cbn [for_range]. unfold bind.
    change (loop_body n 0 (begun obj))
      with (one_page n 0 (ii_gql_query (search_args n (query obj))) (begun obj)).
    rewrite Hone. reflexivity. }
  rewrite Hrun. cbn [fst snd]. repeat split.
Qed.

(** X10. After a page that lets the loop go on, a [pageInfo] with no
    [endCursor] entry ends the run with [KeyError('endCursor')] at line
    123, before anything more is posted. *)
Theorem missing_cursor_raises obj n_pages n k doc r s pi v e :
  let run := request n_pages n (start obj) in
  nth_error (posted (world (snd run))) k = Some doc ->
  post k doc (headers obj) = Ok r ->
  accepted r = true ->
  search_of r = Ok s ->
  (k = O -> counted n s = true) ->
  is_ok (nodes_of s) = true ->
  getitem s "pageInfo" = Ok pi ->
  getitem pi "hasNextPage" = Ok v ->
  is_False v = false ->
  getitem pi "endCursor" = Raise e ->
  Z.of_nat (S k) < n_pages ->
  e = KeyError "endCursor" /\
  fst run = Raise e /\
  List.length (posted (world (snd run))) = S k.
Proof.
  cbv zeta. rewrite request_posted. intros Hk Hr Ha Hs Hc Hn Hpi Hh Hv He Hlt.
  split.
  { unfold getitem in Hh, He. destruct pi; try discriminate Hh.
    destruct (dict_get "endCursor" d); congruence. }
  destruct (pages_step_at _ _ _ _ _ Hk)
    as (stk & f & stk' & (_ & Hhd & _) & Hl & Hpr & _ & Ho & Hcases).
  cbn [self start] in Hhd. rewrite <- Hl, <- Hhd in Hr.
  destruct (nodes_of s) as [nodes|] eqn:Hnodes; [|discriminate].
  destruct (one_page_goes_on n k doc stk r s pi v nodes Hr Ha Hs Hc Hpr Hnodes
              Hpi Hh Hv) as (st1 & Hgo & Hpi1 & _ & Hp1 & _).
  rewrite Hgo in Ho. injection Ho as <- <-.
  destruct Hcases as [[_ Hrest]|(Hf & _)]; [|now destruct Hf].
  destruct (Z.to_nat n_pages - S k)%nat as [|count] eqn:Ec; [lia|].
  cbn [for_range] in Hrest. unfold bind at 1 in Hrest.
  rewrite (loop_body_cursor_raises _ _ _ _ _ Hpi1 He) in Hrest.
  rewrite (request_raises _ _ _ _ _ (eq_sym Hrest)), <- Hrest. cbn [fst snd].
  split; [reflexivity|]. rewrite Hp1, length_app. cbn. lia.
Qed.

(** X2. The cursor is carried from page to page: after a page that
    lets the loop go on (any [hasNextPage] other than the boolean
    [False] does), and while the range has an index left, the next
    document repeats the three search arguments and adds
    [after: "<endCursor of that page>"]. *)
Theorem cursor_is_carried_over obj n_pages n k doc r s pi cursor v :
  let run := request n_pages n (start obj) in
  nth_error (posted (world (snd run))) k = Some doc ->
  post k doc (headers obj) = Ok r ->
  accepted r = true ->
  search_of r = Ok s ->
  (k = O -> counted n s = true) ->
  is_ok (nodes_of s) = true ->
  getitem s "pageInfo" = Ok pi ->
  getitem pi "hasNextPage" = Ok v ->
  is_False v = false ->
  getitem pi "endCursor" = Ok cursor ->
  Z.of_nat (S k) < n_pages ->
  nth_error (posted (world (snd run))) (S k)
  = Some (ii_gql_query
            (List.app (search_args n (query obj)) [after_arg cursor])).
Proof.
  cbv zeta. rewrite request_posted, pages_begun.
  destruct (for_range (loop_body n) 0 (Z.to_nat n_pages) (begun obj))
    as [res st'] eqn:Hf.
  cbn [snd]. intros Hk Hr Ha Hs Hc Hn Hpi Hh Hv Hcur Hlt.
  change (query obj) with (query (self (begun obj))).
  eapply (for_range_cursor n _ O (begun obj)); try eassumption; try reflexivity.
  - intros H. now destruct H.
  - lia.
  - lia.
Qed.

(** X3. The first document of a run has no cursor: it is the template
    filled with the three arguments [first], [query] and [type] only. *)
Theorem first_document_has_no_cursor obj n_pages n doc :
  let run := request n_pages n (start obj) in
  nth_error (posted (world (snd run))) 0 = Some doc ->
  doc = ii_gql_query
          [ "first: " ++ str_int n
          ; "query: " ++ dquote ++ query obj ++ dquote
          ; "type: ISSUE" ].
Proof.
  cbv zeta. rewrite request_posted. intros Hk.
  rewrite pages_begun in Hk.
  destruct (Z.to_nat n_pages) as [|count]; [discriminate Hk|].
  cbn [for_range] in Hk. unfold bind at 1 in Hk.
  change (loop_body n 0 (begun obj))
    with (one_page n 0 (ii_gql_query (search_args n (query obj))) (begun obj)) in Hk.
  pose proof (one_page_posted n 0 (ii_gql_query (search_args n (query obj)))
                (begun obj)) as Hp0.
  destruct (one_page n 0 (ii_gql_query (search_args n (query obj))) (begun obj))
    as [f0 st1] eqn:H0.
  cbn [snd] in Hp0. change (posted (world (begun obj))) with (@nil string) in Hp0.
  cbn [List.app] in Hp0.
  assert (Hext : exists docs, posted (world (snd
              (match f0 with
               | Ok Next => for_range (loop_body n) 1 count
               | Ok Break => ret Broke
               | Ok Return => ret Returned
               | Raise e => fun st => (Raise e, st)
               end st1))) = List.app (posted (world st1)) docs).
  { destruct f0 as [[| |]|e]; cbn [snd ret];
      try (exists []; now rewrite app_nil_r).
    destruct (for_range (loop_body n) 1 count st1) as [res st2] eqn:Hr.
    cbn [snd]. eapply for_range_posted; eassumption. }
  destruct Hext as [docs Hext].
  assert (Hk' : nth_error (List.app (posted (world st1)) docs) 0 = Some doc).
  { rewrite <- Hext. destruct f0 as [[| |]|e]; exact Hk. }
  rewrite Hp0 in Hk'. cbn in Hk'. injection Hk' as <-. reflexivity.
Qed.

(** ** More on the frame *)

Lemma map_series_length f : forall s s',
  Pd.map_series f s = Ok s' -> List.length s' = List.length s.
Proof.
  induction s as [|x0 s IH]; intros s'; cbn [Pd.map_series].
  - intros [= <-]. reflexivity.
  - destruct (f x0); [|discriminate].
    destruct (Pd.map_series f s) as [ys|]; [|discriminate].
    intros [= <-]. cbn. f_equal. now apply IH.
Qed.

(** The frame lines 169-174 build, in full. *)
Lemma normalize_shape l df :
  normalize l = Ok df ->
  exists rs a o p,
    l = map PDict rs /\
    Pd.map_series author_login (map (Pd.cell "author") rs) = Ok a /\
    Pd.map_series (url_segment 3) (map (Pd.cell "url") rs) = Ok o /\
    Pd.map_series (url_segment 4) (map (Pd.cell "url") rs) = Ok p /\
    df = Pd.set_column
           (Pd.set_column
              (Pd.set_column
                 (map (fun k => (k, map (Pd.cell k) rs)) (Pd.union_keys rs))
                 "author" a)
              "org" o)
           "repo" p.
Proof.
  unfold normalize, Pd.of_list.
  destruct (Pd.as_records l) as [rs|] eqn:Hrs; [|discriminate].
  apply as_records_inv in Hrs. cbn [and_then].
  set (df0 := map (fun k => (k, map (Pd.cell k) rs)) (Pd.union_keys rs)).
  destruct (Pd.column df0 "author") as [c|] eqn:Hc; [|discriminate].
  apply (column_frame_ok (fun k => map (Pd.cell k) rs)) in Hc. subst c.
  cbn [and_then].
  destruct (Pd.map_series author_login _) as [a|] eqn:Ha; [|discriminate].
  cbn [and_then]. rewrite column_set_other by reflexivity.
  destruct (Pd.column df0 "url") as [c|] eqn:Hc; [|discriminate].
  apply (column_frame_ok (fun k => map (Pd.cell k) rs)) in Hc. subst c.
  cbn [and_then].
  destruct (Pd.map_series (url_segment 3) _) as [o|] eqn:Ho; [|discriminate].
  cbn [and_then]. rewrite column_set_other by reflexivity.
  rewrite column_set_other by reflexivity.
  destruct (Pd.column df0 "url") as [c|] eqn:Hc; [|discriminate].
  apply (column_frame_ok (fun k => map (Pd.cell k) rs)) in Hc. subst c.
  cbn [and_then].
  destruct (Pd.map_series (url_segment 4) _) as [p|] eqn:Hp; [|discriminate].
  intros [= <-]. exists rs, a, o, p. auto.
Qed.

Lemma column_set_cases df c s k s' :
  Pd.column (Pd.set_column df c s) k = Ok s' ->
  (k = c /\ s' = s) \/ (k <> c /\ Pd.column df k = Ok s').
Proof.
  destruct (String.eqb_spec c k) as [->|Hne].
  - rewrite column_set_same. intros [= <-]. auto.
  - rewrite column_set_other by now apply String.eqb_neq.
    intros H. right. split; [congruence|exact H].
Qed.

(** X6. Normalization touches three columns only: in the frame
    [finalize] leaves, every column other than [author], [org] and
    [repo] is the column of the raw frame of line 169 ([url] among
    them), and every column has one cell for each record kept. *)
Theorem normalization_touches_three_columns st st' :
  finalize st = (Ok tt, st') ->
  exists df0 df,
    Pd.of_list (issues_and_or_prs (self st)) = Ok df0 /\
    data (self st') = Some df /\
    (forall k, k <> "author" -> k <> "org" -> k <> "repo" ->
       Pd.column df k = Pd.column df0 k) /\
    (forall k s, Pd.column df k = Ok s ->
       List.length s = List.length (issues_and_or_prs (self st))).
Proof.
  intros Hf. destruct (finalize_ok_frame _ _ Hf) as (df & Hn & Hd).
  destruct (normalize_shape _ _ Hn) as (rs & a & o & p & Hl & Ha & Ho & Hp & ->).
  eexists. eexists.
  split; [rewrite Hl; unfold Pd.of_list; rewrite as_records_map; reflexivity|].
  split; [exact Hd|]. split.
  - intros k K1 K2 K3.
    rewrite !column_set_other by (apply String.eqb_neq; congruence). reflexivity.
  - intros k s Hk. rewrite Hl, length_map.
    apply map_series_length in Ha, Ho, Hp. rewrite length_map in Ha, Ho, Hp.
    apply column_set_cases in Hk as [[_ ->]|[_ Hk]]; [exact Hp|].
    apply column_set_cases in Hk as [[_ ->]|[_ Hk]]; [exact Ho|].
    apply column_set_cases in Hk as [[_ ->]|[_ Hk]]; [exact Ha|].
    apply (column_frame_ok (fun k => map (Pd.cell k) rs)) in Hk. subst s.
    apply length_map.
Qed.

Lemma well_formed_of_cells d ya yp :
  author_login (Pd.cell "author" d) = Ok ya ->
  url_segment 4 (Pd.cell "url" d) = Ok yp ->
  well_formed d = true.
Proof.
  unfold well_formed, author_ok, url_pieces, Pd.cell. intros Ha Hu.
  destruct (dict_get "author" d) as [a|]; [|discriminate Ha].
  rewrite Ha. cbn [is_ok andb].
  destruct (dict_get "url" d) as [[]|]; try discriminate Hu.
  unfold url_segment, index in Hu.
  destruct (nth_error (split "/"%char s) 4) eqn:E; [|discriminate Hu].
  apply Nat.leb_le.
  assert (4 < List.length (split "/"%char s))%nat; [|lia].
  apply nth_error_Some. congruence.
Qed.

(** X7. Over records that are all mappings, lines 169-174 get through
    exactly when there is at least one record and every record has an
    [author] that is null or has a [login], and a [url] that is a
    string of at least five pieces. *)
Theorem finalize_succeeds_iff_well_formed st rs :
  issues_and_or_prs (self st) = map PDict rs ->
  (fst (finalize st) = Ok tt <-> rs <> [] /\ forallb well_formed rs = true).
Proof.
  intros Hl. destruct (finalize_normalize st) as (Hf & _). rewrite Hf, Hl.
  split.
  - destruct (normalize (map PDict rs)) as [df|] eqn:Hn; [|discriminate].
    intros _. split.
    + intros ->. discriminate Hn.
    + destruct (normalize_shape _ _ Hn) as (rs' & a & o & p & Hrs & Ha & _ & Hp & _).
      assert (rs' = rs) as ->.
      { apply (f_equal Pd.as_records) in Hrs. rewrite !as_records_map in Hrs.
        congruence. }
      apply forallb_forall. intros d Hd.
      apply In_nth_error in Hd as [i Hi].
      assert (Hc : forall k, nth_error (map (Pd.cell k) rs) i = Some (Pd.cell k d))
        by (intros k; rewrite nth_error_map, Hi; reflexivity).
      destruct (map_series_nth _ _ _ _ _ Ha (Hc _)) as (ya & Ea & _).
      destruct (map_series_nth _ _ _ _ _ Hp (Hc _)) as (yp & Ep & _).
      eapply well_formed_of_cells; eassumption.
  - intros [Hne Hall]. destruct rs as [|d rs]; [now destruct Hne|].
    pose proof (normalize_ok d rs Hall) as Hok.
    destruct (normalize (map PDict (d :: rs))); [reflexivity|discriminate].
Qed.

(** ** More on the run: what a failed fetch leaves *)

Lemma one_page_rejected n ii doc st f st1 :
  one_page n ii doc st = (f, st1) ->
  (forall r, post (List.length (posted (world st))) doc (headers (self st)) = Ok r ->
             accepted r = false) ->
  (exists e, f = Raise e) /\
  issues_and_or_prs (self st1) = issues_and_or_prs (self st).
Proof.
  intros H Hrej. remember doc as d eqn:Ed in H.
  assert (Hgoal : forall r,
            post (List.length (posted (world st))) d (headers (self st)) = Ok r ->
            accepted r = false ->
            (exists e, f = Raise e) /\
            issues_and_or_prs (self st1) = issues_and_or_prs (self st)).
  { clear Ed Hrej. intros r0 Hr0 Ha0. crunch_body H.
    all: try (split; [eauto|reflexivity]).
    all: try congruence.
    all: exfalso; injection Hr0 as <-;
      match goal with
      | Hs : negb (status_code ?r =? 200) = false,
        Hk : and_then (json ?r) keys = Ok ?ks,
        He : existsb (String.eqb "errors") ?ks = false |- _ =>
          pose proof (accepted_intro _ _ Hs Hk He); congruence
      end. }
  subst d.
  destruct (post (List.length (posted (world st))) doc (headers (self st)))
    as [r|e] eqn:Hp.
  - exact (Hgoal r eq_refl (Hrej r eq_refl)).
  - clear Hgoal. unfold one_page, fetch, requests_post in H. run.
    rewrite Hp in H. injection H as <- <-. split; [eauto|reflexivity].
Qed.

Lemma for_range_failed_at n count : forall ii st res st' j doc,
  for_range (loop_body n) ii count st = (res, st') ->
  nth_error (posted (world st')) (List.length (posted (world st)) + j) = Some doc ->
  (forall r, post (List.length (posted (world st)) + j) doc (headers (self st)) = Ok r ->
             accepted r = false) ->
  exists docs,
    posted (world st') = List.app (posted (world st)) docs /\
    issues_and_or_prs (self st')
    = List.app (issues_and_or_prs (self st))
        (nodes_from (headers (self st)) (List.length (posted (world st)))
           (firstn j docs)).
Proof.
  induction count as [|count IH]; intros ii st res st' j doc Hf Hk Hrej.
  - cbn [for_range] in Hf. injection Hf as _ <-.
    assert (nth_error (posted (world st)) (List.length (posted (world st)) + j) = None)
      by (apply nth_error_None; lia).
    congruence.
  - cbn [for_range] in Hf. unfold bind at 1 in Hf.
    destruct (loop_body n ii st) as [f st1] eqn:Hb.
    destruct (loop_body_keeps _ _ _ _ _ Hb) as ((_ & Hh & _) & _ & Hn).
    destruct (loop_body_cases _ _ _ _ _ Hb) as [[-> [e ->]]|(doc0 & Hone & Hp)].
    { injection Hf as _ <-.
      assert (nth_error (posted (world st)) (List.length (posted (world st)) + j) = None)
        by (apply nth_error_None; lia).
      congruence. }
    destruct j as [|j].
    + rewrite Nat.add_0_r in Hk, Hrej.
      assert (doc0 = doc) as ->.
      { destruct f as [[| |]|e].
        - destruct (for_range_posted _ _ _ _ _ _ Hf) as [docs Hd].
          rewrite Hd, Hp, nth_error_app_at in Hk. congruence.
        - injection Hf as _ <-. rewrite Hp in Hk.
          rewrite <- (app_nil_r (List.app _ [doc0])), nth_error_app_at in Hk.
          congruence.
        - injection Hf as _ <-. rewrite Hp in Hk.
          rewrite <- (app_nil_r (List.app _ [doc0])), nth_error_app_at in Hk.
          congruence.
        - injection Hf as _ <-. rewrite Hp in Hk.
          rewrite <- (app_nil_r (List.app _ [doc0])), nth_error_app_at in Hk.
          congruence. }
      destruct (one_page_rejected _ _ _ _ _ _ Hone Hrej) as [[e ->] Hi].
      injection Hf as _ <-. exists [doc]. split; [exact Hp|].
      cbn [firstn nodes_from]. now rewrite app_nil_r.
    + assert (f = Ok Next) as ->.
      { destruct f as [[| |]|e]; [reflexivity|..];
          injection Hf as _ <-; rewrite Hp in Hk;
          assert (nth_error (List.app (posted (world st)) [doc0])
                    (List.length (posted (world st)) + S j) = None)
            by (apply nth_error_None; rewrite length_app; cbn; lia);
          congruence. }
      destruct (Hn (or_introl eq_refl)) as (doc1 & Hp1 & Hi1 & _).
      rewrite Hp in Hp1. apply app_one_inv in Hp1. subst doc1.
      assert (Hlen1 : List.length (posted (world st1))
                      = S (List.length (posted (world st))))
        by (rewrite Hp, length_app; cbn; lia).
      destruct (IH (S ii) st1 res st' j doc Hf) as (docs & Hd & Hi).
      * rewrite Hlen1. replace (S (List.length (posted (world st))) + j)%nat
          with (List.length (posted (world st)) + S j)%nat by lia. exact Hk.
      * rewrite Hlen1, Hh. replace (S (List.length (posted (world st))) + j)%nat
          with (List.length (posted (world st)) + S j)%nat by lia. exact Hrej.
      * exists (doc0 :: docs). rewrite Hd, Hp, <- app_assoc.
        split; [reflexivity|].
        rewrite Hi, Hi1, Hh, Hlen1, <- app_assoc. reflexivity.
Qed.

(** X15. When a fetch fails, the records of the pages before it are
    still in [self.issues_and_or_prs]: after a run whose [k]-th post
    failed, the list holds the nodes of the first [k] pages, in order. *)
Theorem failed_fetch_keeps_earlier_records obj n_pages n k doc :
  let run := request n_pages n (start obj) in
  nth_error (posted (world (snd run))) k = Some doc ->
  (forall r, post k doc (headers obj) = Ok r -> accepted r = false) ->
  issues_and_or_prs (self (snd run))
  = nodes_from (headers obj) 0 (firstn k (posted (world (snd run)))).
Proof.
  cbv zeta. rewrite request_posted, request_issues, pages_begun.
  destruct (for_range (loop_body n) 0 (Z.to_nat n_pages) (begun obj))
    as [res st'] eqn:Hf.
  cbn [snd]. intros Hk Hrej.
  destruct (for_range_failed_at n _ O (begun obj) res st' k doc Hf Hk Hrej)
    as (docs & Hd & Hi).
  rewrite Hi, Hd. reflexivity.
Qed.

End Request.

(** ** The number of pages: binary64 division against the exact ceiling *)

Lemma digits2_size p : digits2_pos p = Pos.size p.
Proof. induction p; cbn; congruence. Qed.

Lemma Zdigits2_bounds p :
  2 ^ (Zdigits2 (Zpos p) - 1) <= Zpos p < 2 ^ Zdigits2 (Zpos p).
Proof.
  cbn [Zdigits2]. rewrite digits2_size. split.
  - pose proof (Pos.size_le p) as H.
    assert (Hs : Zpos (Pos.size p) = Z.succ (Zpos (Pos.size p) - 1)) by lia.
    apply Pos2Z.pos_le_pos in H. rewrite Pos2Z.inj_pow in H.
    rewrite Hs, Z.pow_succ_r in H by lia. lia.
  - pose proof (Pos.size_gt p) as H. apply Pos2Z.pos_lt_pos in H.
    now rewrite Pos2Z.inj_pow in H.
Qed.

Lemma Zdigits2_unique p d :
  2 ^ (d - 1) <= Zpos p < 2 ^ d -> Zdigits2 (Zpos p) = d.
Proof.
  intros [Hlo Hhi]. pose proof (Zdigits2_bounds p) as [Blo Bhi].
  assert (0 < Zdigits2 (Zpos p)) by (cbn; lia).
  assert (0 < d).
  { destruct (Z.ltb_spec 0 d); [assumption|].
    destruct (Z.eq_dec d 0) as [->|]; [cbn in Hhi; lia|].
    rewrite Z.pow_neg_r in Hhi by lia. lia. }
  destruct (Z.lt_trichotomy (Zdigits2 (Zpos p)) d) as [Hlt|[Heq|Hgt]]; [|assumption|].
  - assert (2 ^ Zdigits2 (Zpos p) <= 2 ^ (d - 1)) by (apply Z.pow_le_mono_r; lia). lia.
  - assert (2 ^ d <= 2 ^ (Zdigits2 (Zpos p) - 1)) by (apply Z.pow_le_mono_r; lia). lia.
Qed.

Lemma fexp_normal d e :
  -1074 <= d + e - 53 -> fexp 53 1024 (d + e) - e = d - 53.
Proof. unfold fexp, emin. lia. Qed.

Lemma shr_fexp_53 m e l :
  2 ^ 52 <= m < 2 ^ 53 -> -1074 <= e ->
  shr_fexp 53 1024 m e l = (shr_record_of_loc m l, e).
Proof.
  intros Hm He. unfold shr_fexp.
  destruct m as [|p|p]; try (cbn in Hm; lia).
  rewrite (Zdigits2_unique p 53) by (cbn; lia).
  rewrite fexp_normal by lia. reflexivity.
Qed.

Lemma shr_fexp_54 m e l :
  2 ^ 53 <= m < 2 ^ 54 -> -1075 <= e ->
  shr_fexp 53 1024 m e l = (shr_1 (shr_record_of_loc m l), e + 1).
Proof.
  intros Hm He. unfold shr_fexp.
  destruct m as [|p|p]; try (cbn in Hm; lia).
  rewrite (Zdigits2_unique p 54) by (cbn; lia).
  rewrite fexp_normal by lia. reflexivity.
Qed.

Lemma shr_1_pos m r s :
  0 < m ->
  shr_1 {| shr_m := m; shr_r := r; shr_s := s |}
  = {| shr_m := m / 2; shr_r := Z.odd m; shr_s := r || s |}.
Proof.
  intros Hm. destruct m as [|[p|p|]|]; try lia; cbn [shr_1 Z.odd]; f_equal.
  - rewrite Pos2Z.inj_xI. apply Z.div_unique with (r := 1); lia.
  - rewrite Pos2Z.inj_xO. apply Z.div_unique with (r := 0); lia.
Qed.

Lemma round_finish m1 e :
  2 ^ 52 <= m1 <= 2 ^ 53 -> -1074 <= e <= 969 ->
  exists m t,
    (let '(mrs, e2) := shr_fexp 53 1024 m1 e loc_Exact in
     match shr_m mrs with
     | Z0 => S754_zero false
     | Zpos m => if e2 <=? 1024 - 53 then S754_finite false m e2
                 else S754_infinity false
     | Zneg _ => S754_nan
     end) = S754_finite false m (e + t)
    /\ 0 <= t <= 1 /\ Zpos m * 2 ^ t = m1.
Proof.
  intros Hm He. destruct (Z.eq_dec m1 (2 ^ 53)) as [->|Hne].
  - rewrite shr_fexp_54 by (cbn; lia). cbn [shr_record_of_loc].
    rewrite shr_1_pos by (cbn; lia). cbn [shr_m].
    change (2 ^ 53 / 2) with (Zpos (2 ^ 52)).
    destruct (Z.leb_spec (e + 1) (1024 - 53)); [|lia].
    exists (2 ^ 52)%positive, 1. split; [reflexivity|]. split; [lia|reflexivity].
  - rewrite shr_fexp_53 by lia. cbn [shr_record_of_loc shr_m].
    destruct m1 as [|p|p]; try (cbn in Hm; lia).
    destruct (Z.leb_spec e (1024 - 53)); [|lia].
    exists p, 0. rewrite Z.add_0_r. split; [reflexivity|]. split; lia.
Qed.

Lemma round_aux q e loc :
  2 ^ 52 <= q < 2 ^ 54 -> -1074 <= e <= 900 ->
  exists m t,
    binary_round_aux 53 1024 false q e loc = S754_finite false m (e + t)
    /\ 0 <= t <= 2
    /\ (Zpos m * 2 ^ t = q \/ Zpos m * 2 ^ t = q + 1 \/
        (Zpos m * 2 ^ t = q - 1 /\ loc = loc_Exact /\ Z.odd q = true))
    /\ (loc = loc_Exact -> Z.even q = true -> Zpos m * 2 ^ t = q).
Proof.
  intros Hq He. unfold binary_round_aux.
  destruct (Z.ltb_spec q (2 ^ 53)) as [Hlt|Hge].
  - rewrite shr_fexp_53 by lia.
    set (m1 := round_nearest_even _ _).
    assert (Hm1 : m1 = q \/ m1 = q + 1) by
      (subst m1; destruct loc as [|[]]; cbn; try destruct (Z.even q); auto).
    assert (Hex : loc = loc_Exact -> m1 = q) by (intros ->; reflexivity).
    destruct (round_finish m1 e) as (m & t & Hr & Ht & Hv); [lia|lia|].
    exists m, t. split; [exact Hr|]. split; [lia|]. rewrite Hv.
    split; [tauto|]. intros Hl _. now apply Hex.
  - rewrite shr_fexp_54 by lia.
    set (rec := shr_1 (shr_record_of_loc q loc)).
    assert (Hrec : rec = {| shr_m := q / 2; shr_r := Z.odd q;
                            shr_s := match loc with loc_Exact => false | _ => true end |}).
    { subst rec. destruct loc as [|[]]; cbn [shr_record_of_loc];
        rewrite shr_1_pos by lia; reflexivity. }
    rewrite Hrec. clear Hrec rec. cbn [shr_m].
    set (m1 := round_nearest_even _ _).
    pose proof (Z.div_mod q 2 ltac:(lia)) as Hdm.
    pose proof (Z.mod_pos_bound q 2 ltac:(lia)) as Hmb.
    pose proof (Zeven_mod q) as Hev. pose proof (Zodd_mod q) as Hod.
    assert (Hcases :
      (Z.even q = true /\ m1 = q / 2 /\ 2 * (q / 2) = q) \/
      (Z.even q = false /\ loc <> loc_Exact /\ m1 = q / 2 + 1 /\ 2 * (q / 2) = q - 1) \/
      (Z.even q = false /\ loc = loc_Exact /\ (m1 = q / 2 \/ m1 = q / 2 + 1)
       /\ 2 * (q / 2) = q - 1)).
    { subst m1. rewrite Hev, Hod.
      destruct (Z.eqb_spec (q mod 2) 0) as [E|E];
        destruct (Z.eqb_spec (q mod 2) 1) as [E1|E1]; try lia.
      - left. split; [reflexivity|].
        split; [destruct loc as [|[]]; reflexivity|lia].
      - right. destruct loc as [|[]]; cbn [loc_of_shr_record round_nearest_even].
        + right. split; [reflexivity|]. split; [reflexivity|].
          split; [destruct (Z.even (q / 2)); auto|lia].
        + left. repeat split; try discriminate; lia.
        + left. repeat split; try discriminate; lia.
        + left. repeat split; try discriminate; lia. }
    destruct (round_finish m1 (e + 1)) as (m & t & Hr & Ht & Hv).
    { assert (2 ^ 52 <= q / 2 < 2 ^ 53).
      { change (2 ^ 54) with (2 * 2 ^ 53) in Hq. change (2 ^ 53) with (2 * 2 ^ 52) in Hge.
        split; [apply Z.div_le_lower_bound; lia|apply Z.div_lt_upper_bound; lia]. }
      destruct Hcases as [(_ & -> & _)|[(_ & _ & -> & _)|(_ & _ & [->| ->] & _)]]; lia. }
    { lia. }
    exists m, (t + 1). rewrite Hr. split; [f_equal; lia|]. split; [lia|].
    rewrite Z.pow_add_r by lia. change (2 ^ 1) with 2.
    rewrite Z.mul_assoc, Hv.
    destruct Hcases as [(Ev & -> & E2)|[(Ev & Hl & -> & E2)|(Ev & Hl & [->| ->] & E2)]].
    + split; [left; lia|]. intros; lia.
    + split; [right; left; lia|]. intros; congruence.
    + split; [right; right|intros; congruence].
      split; [lia|]. split; [assumption|].
      rewrite <- Z.negb_even, Ev. reflexivity.
    + split; [right; left; lia|]. intros; congruence.
Qed.

Lemma ceil_char x y c : 0 < y -> (c - 1) * y < x <= c * y -> - ((- x) / y) = c.
Proof.
  intros Hy Hx.
  assert (- x / y = - c); [|lia].
  symmetry. apply Z.div_unique with (r := c * y - x); lia.
Qed.

Lemma ceil_div_bounds a b : 0 < b -> (ceil_div a b - 1) * b < a <= ceil_div a b * b.
Proof.
  intros Hb. unfold ceil_div.
  pose proof (Z.div_mod (- a) b ltac:(lia)) as Hd.
  pose proof (Z.mod_pos_bound (- a) b Hb) as Hm. nia.
Qed.

Lemma new_location_exact b r : new_location b r = loc_Exact <-> r = 0.
Proof.
  unfold new_location, new_location_even, new_location_odd.
  destruct (Z.even b); destruct (Z.eqb_spec r 0); split; intros; try tauto; discriminate.
Qed.

Lemma div_eucl_div_mod a b : Z.div_eucl a b = (a / b, a mod b).
Proof. unfold Z.div, Z.modulo. now destruct (Z.div_eucl a b). Qed.

Lemma div_core pa pb :
  Zpos pa < 2 ^ 53 -> Zpos pb < 2 ^ 53 ->
  let s := 53 + Zdigits2 (Zpos pb) - Zdigits2 (Zpos pa) in
  SFdiv_core_binary 53 1024 (Zpos pa) 0 (Zpos pb) 0
  = (Zpos pa * 2 ^ s / Zpos pb, - s, new_location (Zpos pb) ((Zpos pa * 2 ^ s) mod Zpos pb))
  /\ 0 < s <= 105.
Proof.
  intros Ha Hb s.
  pose proof (Zdigits2_bounds pa) as [Ba _]. pose proof (Zdigits2_bounds pb) as [Bb _].
  assert (D1 : 1 <= Zdigits2 (Zpos pa) <= 53).
  { split; [cbn; lia|].
    destruct (Z.leb_spec (Zdigits2 (Zpos pa)) 53); [assumption|].
    assert (2 ^ 53 <= 2 ^ (Zdigits2 (Zpos pa) - 1)) by (apply Z.pow_le_mono_r; lia). lia. }
  assert (D2 : 1 <= Zdigits2 (Zpos pb) <= 53).
  { split; [cbn; lia|].
    destruct (Z.leb_spec (Zdigits2 (Zpos pb)) 53); [assumption|].
    assert (2 ^ 53 <= 2 ^ (Zdigits2 (Zpos pb) - 1)) by (apply Z.pow_le_mono_r; lia). lia. }
  split; [|subst s; lia].
  unfold SFdiv_core_binary.
  set (d1 := Zdigits2 (Zpos pa)) in *. set (d2 := Zdigits2 (Zpos pb)) in *.
  assert (He : Z.min (fexp 53 1024 (d1 + 0 - (d2 + 0))) (0 - 0) = - s)
    by (unfold fexp, emin; subst s; lia).
  rewrite He. replace (0 - 0 - - s) with s by lia.
  destruct s as [|ps|ps] eqn:Es; try lia.
  rewrite Z.shiftl_mul_pow2 by lia. rewrite div_eucl_div_mod. reflexivity.
Qed.

Lemma rounded_between a b q r S M C :
  0 < b < S -> Z.even S = true ->
  a * S = q * b + r -> 0 <= r < b ->
  (C - 1) * b < a <= C * b ->
  (M = q \/ M = q + 1 \/ (M = q - 1 /\ r = 0)) ->
  (r = 0 -> Z.even q = true -> M = q) ->
  (C - 1) * S < M <= C * S.
Proof.
  intros Hb Hev Hdiv Hr Hc HM Hex.
  destruct (Z.eq_dec a (C * b)) as [Ea|Na].
  - assert (Hk : (C * S - q) * b = r) by nia.
    assert (C * S - q = 0) by nia.
    assert (q = C * S) by lia. assert (r = 0) by nia. subst q.
    rewrite Hex; [nia|assumption|].
    rewrite Z.even_mul, Hev. apply orb_true_r.
  - set (R := a - (C - 1) * b). set (k := q - (C - 1) * S).
    assert (HR : 1 <= R <= b - 1) by (subst R; lia).
    assert (Hk : k * b = R * S - r) by (subst k R; nia).
    assert (K1 : 1 <= k) by nia.
    assert (K2 : k <= S - 2) by nia.
    assert (K3 : r = 0 -> 2 <= k) by (intros ->; nia).
    destruct HM as [->|[->|[-> H0]]].
    + subst k. lia.
    + subst k. lia.
    + specialize (K3 H0). subst k. lia.
Qed.

Lemma power_facts a b d1 d2 :
  2 ^ (d1 - 1) <= a < 2 ^ d1 -> 2 ^ (d2 - 1) <= b < 2 ^ d2 ->
  1 <= d1 <= 53 -> 1 <= d2 <= 53 -> 0 < b ->
  let S := 2 ^ (53 + d2 - d1) in
  b < S /\ Z.even S = true /\ 2 ^ 52 <= a * S / b < 2 ^ 54.
Proof.
  intros Ha Hb D1 D2 Hb0 S.
  assert (P1 : 0 < 2 ^ (d1 - 1)) by (apply Z.pow_pos_nonneg; lia).
  assert (P2 : 0 < 2 ^ (d2 - 1)) by (apply Z.pow_pos_nonneg; lia).
  assert (E1 : 2 ^ d1 = 2 * 2 ^ (d1 - 1))
    by (rewrite <- Z.pow_succ_r by lia; f_equal; lia).
  assert (E2 : 2 ^ d2 = 2 * 2 ^ (d2 - 1))
    by (rewrite <- Z.pow_succ_r by lia; f_equal; lia).
  assert (ES : 2 ^ (d1 - 1) * S = 2 ^ 52 * 2 ^ d2).
  { subst S. rewrite <- !Z.pow_add_r by lia. f_equal. lia. }
  assert (S0 : 0 < S) by (apply Z.pow_pos_nonneg; lia).
  assert (Sd : 2 ^ d2 <= S) by (apply Z.pow_le_mono_r; lia).
  split; [lia|]. split.
  - subst S. rewrite Z.even_pow by lia. reflexivity.
  - change (2 ^ 54) with (4 * 2 ^ 52). split.
    + apply Z.div_le_lower_bound; [lia|]. nia.
    + apply Z.div_lt_upper_bound; [lia|]. nia.
Qed.

Lemma int_ceil_char m t s C :
  0 <= t -> 0 < s ->
  (C - 1) * 2 ^ s < Zpos m * 2 ^ t <= C * 2 ^ s ->
  Np.int_ceil (S754_finite false m (- s + t)) = Ok C.
Proof.
  intros Ht Hs HM. cbn [Np.int_ceil cond_Zopp]. f_equal.
  destruct (Z.leb_spec 0 (- s + t)) as [HE|HE].
  - assert (E : 2 ^ t = 2 ^ (- s + t) * 2 ^ s)
      by (rewrite <- Z.pow_add_r by lia; f_equal; lia).
    assert (0 < 2 ^ s) by (apply Z.pow_pos_nonneg; lia).
    rewrite E in HM. nia.
  - assert (E : 2 ^ s = 2 ^ (- (- s + t)) * 2 ^ t)
      by (rewrite <- Z.pow_add_r by lia; f_equal; lia).
    assert (0 < 2 ^ t) by (apply Z.pow_pos_nonneg; lia).
    assert (0 < 2 ^ (- (- s + t))) by (apply Z.pow_pos_nonneg; lia).
    rewrite E in HM. apply ceil_char; [assumption|]. nia.
Qed.

Lemma expected_pages_ceil_div a b :
  0 <= a < 2 ^ 53 -> 0 < b < 2 ^ 53 ->
  expected_pages (PInt a) b = Ok (ceil_div a b).
Proof.
  intros Ha Hb. unfold expected_pages, Np.truediv, Np.int_truediv.
  destruct (Z.eqb_spec b 0) as [|_]; [lia|].
  destruct b as [|pb|pb]; try lia.
  destruct a as [|pa|pa]; try lia.
  - reflexivity.
  - unfold Np.prec, Np.emax. cbn [Np.of_int SFdiv xorb].
    destruct (div_core pa pb) as [Hcore Hs]; [lia|lia|]. cbv zeta in Hcore, Hs.
    rewrite Hcore.
    set (s := 53 + Zdigits2 (Zpos pb) - Zdigits2 (Zpos pa)) in *.
    pose proof (Zdigits2_bounds pa) as Ba. pose proof (Zdigits2_bounds pb) as Bb.
    assert (D1 : 1 <= Zdigits2 (Zpos pa) <= 53).
    { split; [cbn; lia|].
      destruct (Z.leb_spec (Zdigits2 (Zpos pa)) 53); [assumption|].
      assert (2 ^ 53 <= 2 ^ (Zdigits2 (Zpos pa) - 1)) by (apply Z.pow_le_mono_r; lia).
      lia. }
    assert (D2 : 1 <= Zdigits2 (Zpos pb) <= 53).
    { split; [cbn; lia|].
      destruct (Z.leb_spec (Zdigits2 (Zpos pb)) 53); [assumption|].
      assert (2 ^ 53 <= 2 ^ (Zdigits2 (Zpos pb) - 1)) by (apply Z.pow_le_mono_r; lia).
      lia. }
    destruct (power_facts _ _ _ _ Ba Bb D1 D2 ltac:(lia)) as (HbS & HevS & Hq).
    fold s in HbS, HevS, Hq.
    set (q := Zpos pa * 2 ^ s / Zpos pb) in *.
    set (r := (Zpos pa * 2 ^ s) mod Zpos pb) in *.
    destruct (round_aux q (- s) (new_location (Zpos pb) r)) as (m & t & Hr & Ht & HM & Hex);
      [assumption|lia|].
    rewrite Hr.
    apply int_ceil_char; [lia|lia|].
    pose proof (Z.div_mod (Zpos pa * 2 ^ s) (Zpos pb) ltac:(lia)) as Hdm.
    pose proof (Z.mod_pos_bound (Zpos pa * 2 ^ s) (Zpos pb) ltac:(lia)) as Hmb.
    fold q r in Hdm, Hmb.
    apply (rounded_between (Zpos pa) (Zpos pb) q r).
    + lia.
    + assumption.
    + lia.
    + assumption.
    + apply ceil_div_bounds. lia.
    + destruct HM as [H|[H|(H & Hl & _)]]; [auto|auto|].
      right. right. split; [assumption|]. now apply new_location_exact in Hl.
    + intros H0 Hevq. apply Hex; [|assumption]. now apply new_location_exact.
Qed.

(** C5, as the code has it.  For a page size and a count below [2^53]
    (the integers a double holds exactly, far above what the remote end
    counts), the number of pages line 145 computes through the division
    of doubles is the exact ceiling of the quotient; the first page puts
    it in the bar as its maximum and goes on. *)
Theorem expected_pages_is_the_ceiling a b :
  0 <= a < 2 ^ 53 -> 0 < b < 2 ^ 53 ->
  expected_pages (PInt a) b = Ok (ceil_div a b) /\
  (0 < a ->
   forall repr_container json st,
     getitem json "issueCount" = Ok (PInt a) ->
     let out := first_page repr_container b json st in
     fst out = Ok Next /\
     option_map Widgets.max (prog (vars (snd out))) = Some (ceil_div a b)).
Proof.
  intros Ha Hb. pose proof (expected_pages_ceil_div a b Ha Hb) as He.
  split; [exact He|]. intros Hpos repr_container json st Hc. cbv zeta.
  pose proof (ceil_div_bounds a b ltac:(lia)) as Hcb.
  assert (Hn : (ceil_div a b <? 0) = false) by (apply Z.ltb_ge; nia).
  unfold first_page, print, display, bind, lift, gets, modify, ret, raise.
  rewrite Hc. cbn [eq_int].
  destruct (Z.eqb_spec a 0) as [|_]; [lia|]. rewrite He, Hn.
  destruct ((1 <? ceil_div a b) && display_progress (self _)); split; reflexivity.
Qed.

(** X13. The progress bar is put on display exactly when the switch is
    on and the first page counts more items than fit on one page (for
    counts and page sizes below [2^53]). *)
Theorem bar_is_shown_for_more_than_a_page repr_container a b json st :
  0 < a < 2 ^ 53 -> 0 < b < 2 ^ 53 ->
  getitem json "issueCount" = Ok (PInt a) ->
  displayed (world (snd (first_page repr_container b json st)))
  = ((b <? a) && display_progress (self st)) || displayed (world st).
Proof.
  intros Ha Hb Hc.
  pose proof (expected_pages_ceil_div a b ltac:(lia) Hb) as He.
  pose proof (ceil_div_bounds a b ltac:(lia)) as Hcb.
  assert (Hn : (ceil_div a b <? 0) = false) by (apply Z.ltb_ge; nia).
  assert (Hone : (1 <? ceil_div a b) = (b <? a)).
  { destruct (Z.ltb_spec b a); [apply Z.ltb_lt|apply Z.ltb_ge]; nia. }
  unfold first_page, print, display, bind, lift, gets, modify, ret, raise.
  rewrite Hc. cbn [eq_int].
  destruct (Z.eqb_spec a 0) as [|_]; [lia|]. rewrite He, Hn, Hone.
  cbn [self with_vars with_world].
  destruct ((b <? a) && display_progress (self st)); reflexivity.
Qed.

(** ** The theorems on concrete runs *)

Import Scenario.

(** The first document [obj] posts with fifty items a page. *)
Definition first_document : string :=
  ii_gql_query (search_args 50 (query obj)).

(** The one it posts after a page whose [endCursor] is [cursor]. *)
Definition next_document (cursor : pyval) : string :=
  ii_gql_query (List.app (search_args 50 (query obj)) [after_arg repr cursor]).

(** C1 as the claim has it fails: two pages allowed, two pages fetched,
    both with [hasNextPage] true, and the run returns with the table of
    both records. *)
Lemma exhausted_run_returns_the_table :
  let script := [page 2 [alice] (PStr "c1") true; page 2 [ghost] (PStr "c2") true] in
  let run := request repr (answers script) 2 50 (start obj) in
  fst (pages repr (answers script) 2 50 (start obj)) = Ok Exhausted /\
  fst run = Ok tt /\
  data (self (snd run))
  = Some [ ("author", [PStr "alice"; PNone])
         ; ("url", [ PStr "https://github.com/ORG/REPO/issues/1"
                   ; PStr "https://github.com/ORG/REPO/issues/2" ])
         ; ("org", [PStr "ORG"; PStr "ORG"])
         ; ("repo", [PStr "REPO"; PStr "REPO"]) ].
Proof. vm_compute. repeat split. Qed.

Lemma exhausted_pages_witness :
  let script := [page 2 [alice] (PStr "c1") true; page 2 [ghost] (PStr "c2") true] in
  let out := pages repr (answers script) 2 50 (start obj) in
  fst out = Ok Exhausted /\
  List.length (posted (world (snd out))) = 2%nat /\
  request repr (answers script) 2 50 (start obj) = finalize (snd out).
Proof.
  cbv zeta. split; [vm_compute; reflexivity|].
  destruct (exhausted_pages_are_the_table repr
              (answers [page 2 [alice] (PStr "c1") true; page 2 [ghost] (PStr "c2") true])
              obj 2 50
              (snd (pages repr
                      (answers [page 2 [alice] (PStr "c1") true;
                                page 2 [ghost] (PStr "c2") true])
                      2 50 (start obj))))
    as (Hlen & Hrun & _).
  - vm_compute. reflexivity.
  - split; [exact Hlen | exact Hrun].
Defined.

Lemma fetch_failures_witness :
  fst (request repr (answers [unauthorized]) 100 50 (start obj))
  = Raise (Exception (status_message 401 first_document)) /\
  fst (request repr (answers [page 2 [alice] (PStr "c1") true; rejected]) 100 50 (start obj))
  = Raise (Exception (errors_message repr errors (next_document (PStr "c1")))).
Proof.
  split.
  - apply (fetch_failures_end_the_run repr (answers [unauthorized]) obj 100 50
             0 first_document unauthorized).
    + vm_compute. reflexivity.
    + reflexivity.
    + vm_compute. discriminate.
  - apply (fetch_failures_end_the_run repr
             (answers [page 2 [alice] (PStr "c1") true; rejected]) obj 100 50
             1 (next_document (PStr "c1")) rejected) with (d := [("errors", errors)]).
    + vm_compute. reflexivity.
    + reflexivity.
    + reflexivity.
    + reflexivity.
    + reflexivity.
Defined.

Lemma no_entries_witness :
  let run := request repr (answers [page 0 [] PNone false]) 100 50 (start obj) in
  fst run = Ok tt /\
  data (self (snd run)) = Some Pd.empty /\
  posted (world (snd run)) = [first_document] /\
  printed (world (snd run)) = ["Found no entries for query."].
Proof.
  apply (no_entries_is_an_empty_table repr (answers [page 0 [] PNone false]) obj 100 50
           (page 0 [] PNone false) (search 0 [] PNone false) (PInt 0)).
  - lia.
  - reflexivity.
  - reflexivity.
  - reflexivity.
  - reflexivity.
  - reflexivity.
Defined.


Lemma null_cursor_witness :
  let script := [page 2 [alice] PNone true; page 2 [ghost] PNone false] in
  let run := request repr (answers script) 100 50 (start obj) in
  nth_error (posted (world (snd run))) 1 = Some (next_document PNone).
Proof.
  cbv zeta.
  apply (null_cursor_is_posted_as_None repr
           (answers [page 2 [alice] PNone true; page 2 [ghost] PNone false])
           obj 100 50 0 first_document
           (page 2 [alice] PNone true) (search 2 [alice] PNone true)
           (PDict [("endCursor", PNone); ("hasNextPage", PBool true)])).
  - vm_compute. reflexivity.
  - reflexivity.
  - reflexivity.
  - reflexivity.
  - intros _. vm_compute. reflexivity.
  - reflexivity.
  - reflexivity.
  - reflexivity.
  - reflexivity.
  - lia.
Defined.

Lemma author_org_repo_witness :
  (forall st', finalize (kept [ghost; alice]) = (Ok tt, st') ->
     exists df, data (self st') = Some df /\
       Pd.at_ df "author" 1 = Some (PStr "alice") /\
       Pd.at_ df "org" 1 = Some (PStr "ORG") /\
       Pd.at_ df "repo" 1 = Some (PStr "REPO")) /\
  fst (finalize (kept [alice])) = Ok tt.
Proof.
  split.
  - apply (author_org_repo_of_a_record (kept [ghost; alice]) 1
             [("author", PDict [("login", PStr "alice")]);
              ("url", PStr "https://github.com/ORG/REPO/issues/1")]
             [("login", PStr "alice")] (PStr "alice")
             "https://github.com/ORG/REPO/issues/1" "ORG" "REPO");
      reflexivity.
  - apply (author_org_repo_of_a_record (kept [alice]) 0
             [("author", PDict [("login", PStr "alice")]);
              ("url", PStr "https://github.com/ORG/REPO/issues/1")]
             [("login", PStr "alice")] (PStr "alice")
             "https://github.com/ORG/REPO/issues/1" "ORG" "REPO");
      reflexivity.
Defined.

Lemma null_author_witness :
  fst (finalize (kept [ghost])) = Ok tt.
Proof.
  apply (null_author_is_absent (kept [ghost]) 0
           [("author", PNone); ("url", PStr "https://github.com/ORG/REPO/issues/2")]
           eq_refl eq_refl)
    with (pieces := split "/"%char "https://github.com/ORG/REPO/issues/2").
  - reflexivity.
  - reflexivity.
  - vm_compute. lia.
Defined.

Lemma short_url_witness :
  fst (finalize (kept [alice; stray])) = Raise IndexError.
Proof.
  apply (short_url_fails (kept [alice; stray])
           [ [("author", PDict [("login", PStr "alice")]);
              ("url", PStr "https://github.com/ORG/REPO/issues/1")]
           ; [("author", PDict [("login", PStr "bob")]);
              ("url", PStr "https://github.com/ORG")] ]
           [("author", PDict [("login", PStr "bob")]);
            ("url", PStr "https://github.com/ORG")]
           (split "/"%char "https://github.com/ORG")).
  - reflexivity.
  - right. left. reflexivity.
  - reflexivity.
  - vm_compute. lia.
  - reflexivity.
Defined.

(** C9 on a run: the first page counts three items and carries none, and
    says it is the last; the run raises [KeyError('author')].  The page
    that counts none, next to it, returns the empty frame. *)
Theorem empty_pages_raise_KeyError :
  let run := request repr (answers [page 3 [] PNone false]) 100 50 (start obj) in
  let none := request repr (answers [page 0 [] PNone false]) 100 50 (start obj) in
  issues_and_or_prs (self (snd run)) = [] /\
  fst run = Raise (KeyError "author") /\
  fst none = Ok tt /\ data (self (snd none)) = Some Pd.empty.
Proof. vm_compute. repeat split. Qed.

(** C5 as the claim has it fails: the double nearest to [2^53 + 1] is
    [2^53], and that is the number of pages line 145 computes for
    [2^53 + 1] items, one a page. *)
Lemma expected_pages_rounds :
  expected_pages (PInt 9007199254740993) 1 = Ok 9007199254740992 /\
  ceil_div 9007199254740993 1 = 9007199254740993 /\
  expected_pages (PInt 9007199254740993) 1 <> Ok (ceil_div 9007199254740993 1).
Proof. vm_compute. repeat split. discriminate. Qed.

Lemma expected_pages_witness :
  expected_pages (PInt 120) 50 = Ok 3.
Proof.
  apply (expected_pages_is_the_ceiling 120 50); vm_compute; split; congruence.
Defined.

(** ** The further theorems on concrete runs *)

Lemma cursor_is_carried_over_witness :
  nth_error (posted (world (snd (request repr (answers two_pages) 100 50 (start obj))))) 1
  = Some (next_document (PStr "c1")).
Proof.
  apply (cursor_is_carried_over repr (answers two_pages) obj 100 50 0 first_document
           (page 2 [alice] (PStr "c1") true) (search 2 [alice] (PStr "c1") true)
           (PDict [("endCursor", PStr "c1"); ("hasNextPage", PBool true)])
           (PStr "c1") (PBool true)).
  - vm_compute. reflexivity.
  - reflexivity.
  - reflexivity.
  - reflexivity.
  - intros _. vm_compute. reflexivity.
  - reflexivity.
  - reflexivity.
  - reflexivity.
  - reflexivity.
  - reflexivity.
  - lia.
Defined.

Lemma first_document_witness :
  first_document
  = ii_gql_query ["first: 50"; "query: " ++ dquote ++ "repo:ORG/REPO" ++ dquote;
                  "type: ISSUE"].
Proof.
  apply (first_document_has_no_cursor repr (answers [unauthorized]) obj 100 50
           first_document).
  vm_compute. reflexivity.
Defined.

Lemma records_in_arrival_order_witness :
  issues_and_or_prs (self (snd (request repr (answers two_pages) 100 50 (start used))))
  = [alice; ghost].
Proof.
  destruct (records_in_arrival_order repr (answers two_pages) used 100 50 Broke)
    as (H & _).
  - vm_compute. reflexivity.
  - discriminate.
  - rewrite H. vm_compute. reflexivity.
Defined.

Lemma normalization_touches_three_columns_witness :
  exists df0 df,
    Pd.of_list [alice; ghost] = Ok df0 /\
    data (self (snd (finalize (kept [alice; ghost])))) = Some df /\
    (forall k, k <> "author" -> k <> "org" -> k <> "repo" ->
       Pd.column df k = Pd.column df0 k) /\
    (forall k s, Pd.column df k = Ok s -> List.length s = 2%nat).
Proof.
  apply (normalization_touches_three_columns (kept [alice; ghost])
           (snd (finalize (kept [alice; ghost])))).
  vm_compute. reflexivity.
Defined.

Lemma finalize_succeeds_witness :
  fst (finalize (kept [alice; ghost])) = Ok tt /\
  fst (finalize (kept [alice; stray])) <> Ok tt.
Proof.
  split.
  - apply (finalize_succeeds_iff_well_formed (kept [alice; ghost])
             [ [("author", PDict [("login", PStr "alice")]);
                ("url", PStr "https://github.com/ORG/REPO/issues/1")]
             ; [("author", PNone);
                ("url", PStr "https://github.com/ORG/REPO/issues/2")] ]).
    + reflexivity.
    + split; [discriminate|vm_compute; reflexivity].
  - intros H.
    apply (finalize_succeeds_iff_well_formed (kept [alice; stray])
             [ [("author", PDict [("login", PStr "alice")]);
                ("url", PStr "https://github.com/ORG/REPO/issues/1")]
             ; [("author", PDict [("login", PStr "bob")]);
                ("url", PStr "https://github.com/ORG")] ]) in H.
    + destruct H as [_ H]. vm_compute in H. discriminate.
    + reflexivity.
Defined.

Lemma failed_run_witness :
  let run := request repr (answers broken_second) 100 50 (start used) in
  fst run = Raise (Exception (status_message 401 (next_document (PStr "c1")))) /\
  data (self (snd run)) = Some stale_frame.
Proof.
  apply (failed_run_leaves_data_alone repr (answers broken_second) used 100 50).
  vm_compute. reflexivity.
Defined.

Lemma no_post_after_a_failed_fetch_witness :
  List.length (posted (world (snd (request repr (answers broken_second) 100 50 (start obj)))))
  = 2%nat.
Proof.
  apply (no_post_after_a_failed_fetch repr (answers broken_second) obj 100 50 1
           (next_document (PStr "c1"))).
  - vm_compute. reflexivity.
  - intros r H. vm_compute in H. injection H as <-. reflexivity.
Defined.

Lemma missing_cursor_witness :
  let run := request repr (answers [page_without_cursor 2 [alice]; page 2 [ghost] PNone false])
               100 50 (start obj) in
  fst run = Raise (KeyError "endCursor") /\
  List.length (posted (world (snd run))) = 1%nat.
Proof.
  cbv zeta.
  destruct (missing_cursor_raises repr
              (answers [page_without_cursor 2 [alice]; page 2 [ghost] PNone false])
              obj 100 50 0 first_document
              (page_without_cursor 2 [alice]) (search_without_cursor 2 [alice])
              (PDict [("hasNextPage", PBool true)]) (PBool true) (KeyError "endCursor"))
    as (_ & H1 & H2).
  - vm_compute. reflexivity.
  - reflexivity.
  - reflexivity.
  - reflexivity.
  - intros _. vm_compute. reflexivity.
  - reflexivity.
  - reflexivity.
  - reflexivity.
  - reflexivity.
  - reflexivity.
  - lia.
  - split; assumption.
Defined.

Lemma zero_page_size_witness :
  fst (request repr (answers [page 2 [alice] PNone false]) 100 0 (start obj))
  = Raise ZeroDivisionError.
Proof.
  apply (page_count_failure_raises repr (answers [page 2 [alice] PNone false]) obj 100 0
           (page 2 [alice] PNone false) (search 2 [alice] PNone false) (PInt 2)
           ZeroDivisionError).
  - lia.
  - reflexivity.
  - reflexivity.
  - reflexivity.
  - reflexivity.
  - reflexivity.
  - reflexivity.
Defined.

Lemma answer_without_search_witness :
  let run := request repr (answers [bare; page 2 [ghost] PNone false]) 100 50 (start obj) in
  fst run = Raise (KeyError "data") /\
  List.length (posted (world (snd run))) = 1%nat.
Proof.
  apply (answer_without_search_raises repr (answers [bare; page 2 [ghost] PNone false])
           obj 100 50 0 first_document bare (KeyError "data")).
  - vm_compute. reflexivity.
  - reflexivity.
  - reflexivity.
  - reflexivity.
Defined.

Lemma bar_is_shown_witness :
  displayed (world (snd (first_page repr 50 (search 120 [alice] PNone true) (start obj))))
  = true /\
  displayed (world (snd (first_page repr 50 (search 40 [alice] PNone false) (start obj))))
  = false.
Proof.
  split.
  - rewrite (bar_is_shown_for_more_than_a_page repr 120 50
               (search 120 [alice] PNone true) (start obj)); try reflexivity; lia.
  - rewrite (bar_is_shown_for_more_than_a_page repr 40 50
               (search 40 [alice] PNone false) (start obj)); try reflexivity; lia.
Defined.

Lemma last_query_witness :
  last_query (self (snd (request repr (answers two_pages) 100 50 (start obj))))
  = Some (next_document (PStr "c1")).
Proof.
  rewrite (last_query_is_the_last_document repr (answers two_pages) obj 100 50 Broke).
  - vm_compute. reflexivity.
  - vm_compute. reflexivity.
  - discriminate.
Defined.

Lemma failed_fetch_keeps_earlier_records_witness :
  issues_and_or_prs
    (self (snd (request repr (answers broken_second) 100 50 (start used))))
  = [alice].
Proof.
  rewrite (failed_fetch_keeps_earlier_records repr (answers broken_second) used 100 50 1
             (next_document (PStr "c1"))).
  - vm_compute. reflexivity.
  - vm_compute. reflexivity.
  - intros r H. vm_compute in H. injection H as <-. reflexivity.
Defined.
